(** * Jira wiki markup to ADF: a shallow embedding of [JiraWikiToADFConverter]

    Source: [src/jira_wiki_to_adf_converter.py].  Strings are Stdlib
    [string]s over [ascii]; Python's regular expressions are written out as
    anchored matchers returning the groups and the matched length, and
    [re.search] as the leftmost position where the anchored matcher
    succeeds.  The conversion state ([ParsingContext]) is threaded through a
    small state monad; the two [while] loops whose progress is not
    structural (the inline scan and the document loop) are bounded by a fuel
    argument, and running out of fuel is the only way the model fails. *)

From Stdlib Require Import Strings.String Strings.Ascii Lists.List Bool Arith Lia.
From Stdlib Require Import DecimalString.
Import ListNotations.
Open Scope string_scope.
Open Scope nat_scope.


(** ** Characters and string helpers *)

Definition nl : ascii := "010"%char.
Definition cr : ascii := "013"%char.
Definition nl_s : string := String nl EmptyString.

(** Python's [str.isspace] restricted to ASCII, which is also what [\s]
    matches in a [str] pattern: 9-13 and 28-32. *)
Definition is_space (c : ascii) : bool :=
  let n := nat_of_ascii c in
  ((9 <=? n) && (n <=? 13)) || ((28 <=? n) && (n <=? 32)).

Definition is_digit (c : ascii) : bool :=
  let n := nat_of_ascii c in (48 <=? n) && (n <=? 57).
Definition is_lower (c : ascii) : bool :=
  let n := nat_of_ascii c in (97 <=? n) && (n <=? 122).
Definition is_upper (c : ascii) : bool :=
  let n := nat_of_ascii c in (65 <=? n) && (n <=? 90).
Definition is_alpha (c : ascii) : bool := is_lower c || is_upper c.
Definition is_alnum (c : ascii) : bool := is_alpha c || is_digit c.
(** [[a-fA-F0-9]] *)
Definition is_hex (c : ascii) : bool :=
  let n := nat_of_ascii c in
  is_digit c || ((97 <=? n) && (n <=? 102)) || ((65 <=? n) && (n <=? 70)).

Definition to_lower_char (c : ascii) : ascii :=
  if is_upper c then ascii_of_nat (nat_of_ascii c + 32) else c.

(** [str.lower] on ASCII. *)
Fixpoint lower (s : string) : string :=
  match s with
  | EmptyString => EmptyString
  | String c r => String (to_lower_char c) (lower r)
  end.

Fixpoint all_chars (p : ascii -> bool) (s : string) : bool :=
  match s with
  | EmptyString => true
  | String c r => p c && all_chars p r
  end.

(** Longest prefix whose characters satisfy [p], and the rest. *)
Fixpoint span (p : ascii -> bool) (s : string) : string * string :=
  match s with
  | EmptyString => (EmptyString, EmptyString)
  | String c r =>
      if p c then let (a, b) := span p r in (String c a, b)
      else (EmptyString, s)
  end.

Fixpoint sdrop (n : nat) (s : string) : string :=
  match n, s with
  | O, _ => s
  | S k, EmptyString => EmptyString
  | S k, String _ r => sdrop k r
  end.

Fixpoint stake (n : nat) (s : string) : string :=
  match n, s with
  | O, _ => EmptyString
  | S k, EmptyString => EmptyString
  | S k, String c r => String c (stake k r)
  end.

Fixpoint starts_with (p s : string) : bool :=
  match p, s with
  | EmptyString, _ => true
  | String a p', String b s' => Ascii.eqb a b && starts_with p' s'
  | String _ _, EmptyString => false
  end.

Fixpoint lstrip (s : string) : string :=
  match s with
  | EmptyString => EmptyString
  | String c r => if is_space c then lstrip r else s
  end.

(** [str.rstrip()]: a character is dropped when it is whitespace and only
    whitespace follows it. *)
Fixpoint rstrip (s : string) : string :=
  match s with
  | EmptyString => EmptyString
  | String c r =>
      let r' := rstrip r in
      match r' with
      | EmptyString => if is_space c then EmptyString else String c EmptyString
      | _ => String c r'
      end
  end.

(** [str.strip()] *)
Definition strip (s : string) : string := rstrip (lstrip s).

(** [not s.strip()] *)
Definition is_blank (s : string) : bool := all_chars is_space s.

(** Index of the first occurrence of [p] in [s] ([str.find], [None] for -1). *)
Fixpoint find_sub (p s : string) : option nat :=
  if starts_with p s then Some 0
  else match s with
       | EmptyString => None
       | String _ r => option_map S (find_sub p r)
       end.

(** [str.count('\n')] *)
Fixpoint count_nl (s : string) : nat :=
  match s with
  | EmptyString => 0
  | String c r => (if Ascii.eqb c nl then 1 else 0) + count_nl r
  end.

(** [str.split('\n')] *)
Fixpoint split_nl (s : string) : list string :=
  match s with
  | EmptyString => [EmptyString]
  | String c r =>
      if Ascii.eqb c nl then EmptyString :: split_nl r
      else match split_nl r with
           | [] => [String c EmptyString]
           | l :: ls => String c l :: ls
           end
  end.

(** [sep.join(l)] *)
Fixpoint join (sep : string) (l : list string) : string :=
  match l with
  | [] => EmptyString
  | [x] => x
  | x :: xs => x ++ sep ++ join sep xs
  end.

(** [s.split(sep)] for a non-empty separator. *)
Fixpoint split_on_aux (sep : string) (fuel : nat) (s : string) : list string :=
  match fuel with
  | O => [s]
  | S f =>
      match find_sub sep s with
      | None => [s]
      | Some k => stake k s :: split_on_aux sep f (sdrop (k + String.length sep) s)
      end
  end.
Definition split_on (sep s : string) : list string :=
  split_on_aux sep (S (String.length s)) s.

(** [s.replace(a, b)] for a non-empty [a]. *)
Fixpoint replace_aux (a b : string) (fuel : nat) (s : string) : string :=
  match fuel with
  | O => s
  | S f =>
      match s with
      | EmptyString => EmptyString
      | String c r =>
          if starts_with a s then b ++ replace_aux a b f (sdrop (String.length a) s)
          else String c (replace_aux a b f r)
      end
  end.
Definition replace (a b s : string) : string :=
  replace_aux a b (S (String.length s)) s.

(** ** The regular expressions of [_compile_patterns]

    A [matcher] is a pattern anchored at the start of its argument
    ([re.match]): it returns the groups (1, 2, ...; [None] for a group that
    did not participate) and the length of the whole match (group 0).
    Every pattern below is deterministic once greedy runs are taken maximal:
    a shorter run would leave a run character where the pattern needs the
    closing delimiter, so backtracking never finds another match. *)

Definition groups := list (option string).
Definition matcher := string -> option (groups * nat).

Definition chr (c : ascii) : string := String c EmptyString.

(** [d([^d\n]+)d]: bold ['*'], italic ['_'], underline ['+'],
    strikethrough ['-'], superscript ['^'] (class [[^^^\n]]), subscript
    ['~'], image ['!']. *)
Definition m_delim (d : ascii) : matcher := fun s =>
  match s with
  | String c r =>
      if Ascii.eqb c d then
        let (run, rest) := span (fun x => negb (Ascii.eqb x d) && negb (Ascii.eqb x nl)) r in
        match run with
        | EmptyString => None
        | _ => if starts_with (chr d) rest
               then Some ([Some run], String.length run + 2) else None
        end
      else None
  | EmptyString => None
  end.

(** [\?\?([^?\n]+)\?\?] *)
Definition m_citation : matcher := fun s =>
  if starts_with "??" s then
    let (run, rest) := span (fun x => negb (Ascii.eqb x "?") && negb (Ascii.eqb x nl)) (sdrop 2 s) in
    match run with
    | EmptyString => None
    | _ => if starts_with "??" rest then Some ([Some run], String.length run + 4) else None
    end
  else None.

(** [\{\{([^}]+)\}\}] *)
Definition m_monospace : matcher := fun s =>
  if starts_with "{{" s then
    let (run, rest) := span (fun x => negb (Ascii.eqb x "}")) (sdrop 2 s) in
    match run with
    | EmptyString => None
    | _ => if starts_with "}}" rest then Some ([Some run], String.length run + 4) else None
    end
  else None.

(** [\[([^\]]+)\]] *)
Definition m_link_simple : matcher := fun s =>
  if starts_with "[" s then
    let (run, rest) := span (fun x => negb (Ascii.eqb x "]")) (sdrop 1 s) in
    match run with
    | EmptyString => None
    | _ => if starts_with "]" rest then Some ([Some run], String.length run + 2) else None
    end
  else None.

(** [\[([^|\]]+)\|([^\]]+)\]] *)
Definition m_link_with_text : matcher := fun s =>
  if starts_with "[" s then
    let (run1, rest1) :=
      span (fun x => negb (Ascii.eqb x "|") && negb (Ascii.eqb x "]")) (sdrop 1 s) in
    match run1 with
    | EmptyString => None
    | _ =>
        if starts_with "|" rest1 then
          let (run2, rest2) := span (fun x => negb (Ascii.eqb x "]")) (sdrop 1 rest1) in
          match run2 with
          | EmptyString => None
          | _ => if starts_with "]" rest2
                 then Some ([Some run1; Some run2],
                            String.length run1 + String.length run2 + 3)
                 else None
          end
        else None
    end
  else None.

(** [\\\\]: two backslashes (a Rocq string has no escapes). *)
Definition m_line_break : matcher := fun s =>
  if starts_with "\\" s then Some ([], 2) else None.

(** The lazy body [(.*?)] (with DOTALL) followed by the closing marker
    [close]: the text up to the first occurrence of [close], and the length
    consumed including [close]. *)
Definition lazy_body (close s : string) : option (string * nat) :=
  match find_sub close s with
  | Some k => Some (stake k s, k + String.length close)
  | None => None
  end.

(** [#?[a-fA-F0-9]{3,6}|[a-zA-Z]+] as a whole-token test.  The token is
    followed by ['}'], which neither alternative contains, so it is the text
    up to the first ['}']. *)
Definition color_token (tok : string) : bool :=
  let h := match tok with
           | String c r => if Ascii.eqb c "#" then r else tok
           | EmptyString => tok
           end in
  (all_chars is_hex h && (3 <=? String.length h) && (String.length h <=? 6))
  || (negb (String.length tok =? 0) && all_chars is_alpha tok).

(** [\{color:(#?[a-fA-F0-9]{3,6}|[a-zA-Z]+)\}(.*?)\{color\}], DOTALL *)
Definition m_color : matcher := fun s =>
  if starts_with "{color:" s then
    let (tok, rest) := span (fun x => negb (Ascii.eqb x "}")) (sdrop 7 s) in
    if starts_with "}" rest && color_token tok then
      match lazy_body "{color}" (sdrop 1 rest) with
      | Some (body, n) => Some ([Some tok; Some body], 7 + String.length tok + 1 + n)
      | None => None
      end
    else None
  else None.

(** [\{code(?::([a-zA-Z0-9]+))?\}(.*?)\{code\}], DOTALL *)
Definition m_code_block : matcher := fun s =>
  if starts_with "{code" s then
    let opener :=
      match sdrop 5 s with
      | String c r =>
          if Ascii.eqb c ":" then
            let (lang, rest) := span is_alnum r in
            match lang with
            | EmptyString => None
            | _ => if starts_with "}" rest
                   then Some (Some lang, sdrop 1 rest, 7 + String.length lang)
                   else None
            end
          else if Ascii.eqb c "}" then Some (None, r, 6)
          else None
      | EmptyString => None
      end in
    match opener with
    | Some (lang, r, k) =>
        match lazy_body "{code}" r with
        | Some (body, n) => Some ([lang; Some body], k + n)
        | None => None
        end
    | None => None
    end
  else None.

(** [\{name\}(.*?)\{name\}], DOTALL: [noformat] and [quote]. *)
Definition m_fenced (marker : string) : matcher := fun s =>
  if starts_with marker s then
    match lazy_body marker (sdrop (String.length marker) s) with
    | Some (body, n) => Some ([Some body], String.length marker + n)
    | None => None
    end
  else None.

Definition m_noformat : matcher := m_fenced "{noformat}".
Definition m_quote : matcher := m_fenced "{quote}".

(** [\{panel(?::title=(G))?\}(.*?)\{panel\}], DOTALL, where the title
    group [G] is [[^}]*] (any run of non-['}'] characters, possibly empty). *)
Definition m_panel : matcher := fun s =>
  if starts_with "{panel" s then
    let r := sdrop 6 s in
    let opener :=
      if starts_with ":title=" r then
        let (t, rest) := span (fun x => negb (Ascii.eqb x "}")) (sdrop 7 r) in
        if starts_with "}" rest then Some (Some t, sdrop 1 rest, 14 + String.length t)
        else None
      else if starts_with "}" r then Some (None, sdrop 1 r, 7)
      else None in
    match opener with
    | Some (title, r', k) =>
        match lazy_body "{panel}" r' with
        | Some (body, n) => Some ([title; Some body], k + n)
        | None => None
        end
    | None => None
    end
  else None.

(** [pattern.search(s)]: the leftmost position where the anchored matcher
    succeeds, with its groups and length. *)
Fixpoint search_from (m : matcher) (s : string) (pos : nat)
  : option (nat * (groups * nat)) :=
  match m s with
  | Some r => Some (pos, r)
  | None =>
      match s with
      | EmptyString => None
      | String _ s' => search_from m s' (S pos)
      end
  end.

Definition search (m : matcher) (s : string) := search_from m s 0.

(** *** Line patterns of the block parser

    These are matched against single lines of [text.split('\n')], which
    contain no newline, so [.] matches every character and [$] is the end
    of the line. *)

Definition last_char (s : string) : string := sdrop (String.length s - 1) s.

(** [^h([1-6])\.\s*(.+)$]: the level digit and group 2.  When only
    whitespace follows the dot, [\s*] gives its last character back to
    [.+]. *)
Definition m_heading (s : string) : option (nat * string) :=
  match s with
  | String h (String d (String dot rest)) =>
      if Ascii.eqb h "h" && Ascii.eqb dot "." &&
         (49 <=? nat_of_ascii d) && (nat_of_ascii d <=? 54) then
        match lstrip rest with
        | EmptyString =>
            match rest with
            | EmptyString => None
            | _ => Some (nat_of_ascii d - 48, last_char rest)
            end
        | t => Some (nat_of_ascii d - 48, t)
        end
      else None
  | _ => None
  end.

(** [^----+$] *)
Definition is_horizontal_rule (s : string) : bool :=
  (4 <=? String.length s) && all_chars (fun x => Ascii.eqb x "-") s.

Definition ends_with (p s : string) : bool :=
  (String.length p <=? String.length s) &&
  String.eqb (sdrop (String.length s - String.length p) s) p.

(** [^\|\|(.+)\|\|$]: group 1. *)
Definition m_table_header (s : string) : option string :=
  if starts_with "||" s && ends_with "||" s && (5 <=? String.length s)
  then Some (substring 2 (String.length s - 4) s) else None.

(** [^\|([^|].+[^|])\|$]: group 1. *)
Definition m_table_row (s : string) : option string :=
  let n := String.length s in
  if starts_with "|" s && ends_with "|" s && (5 <=? n)
     && negb (String.eqb (substring 1 1 s) "|")
     && negb (String.eqb (substring (n - 2) 1 s) "|")
  then Some (substring 1 (n - 2) s) else None.

(** [^(\*+)\s+(.+)$] ([k] = ['*']) and [^(#+)\s+(.+)$] ([k] = ['#']):
    the marker run length and group 2. *)
Definition m_list_item (k : ascii) (s : string) : option (nat * string) :=
  let (marks, r) := span (fun x => Ascii.eqb x k) s in
  match marks with
  | EmptyString => None
  | _ =>
      let (sp, t) := span is_space r in
      match sp, t with
      | EmptyString, _ => None
      | _, String _ _ => Some (String.length marks, t)
      | String _ (String _ _), EmptyString => Some (String.length marks, last_char sp)
      | _, _ => None
      end
  end.

Definition m_bullet_list := m_list_item "*".
Definition m_numbered_list := m_list_item "#".

(** ** Node model (the ADF dictionaries the converter builds) *)

(** Mark dictionaries: [strong], [em], [underline], [strike],
    [subsup] with [attrs.type] ("sup"/"sub"), [code], [textColor] with
    [attrs.color], [link] with [attrs.href]. *)
Inductive mark :=
| Strong
| Em
| Underline
| Strike
| SubSup (kind : string)
| CodeMark
| TextColor (color : string)
| Link (href : string).

(** Inline dictionaries.  [Text s []] is a text node without a [marks]
    key; the code never builds an empty [marks] list. *)
Inductive inline :=
| Text (text : string) (marks : list mark)
| MediaSingle (src : string)   (* mediaSingle > media {type: external, url: src, alt: src} *)
| HardBreak.

(** [tableHeader] / [tableCell], each holding one paragraph. *)
Inductive cell :=
| TableHeader (content : list inline)
| TableCell (content : list inline).

Inductive row := TableRow (cells : list cell).

(** [listItem] holding one paragraph. *)
Inductive list_item := ListItem (content : list inline).

Inductive list_kind := KBullet | KOrdered.

(** Block dictionaries.  [CodeBlock attrs]: [None] when the dictionary has
    no [attrs] key (noformat), [Some None] for [attrs = {}], [Some (Some l)]
    for [attrs = {language: l}].  [Panel (Some t)] carries [attrs.title]. *)
Inductive block :=
| Heading (level : nat) (content : list inline)
| Rule
| Table (rows : list row)
| BulletList (items : list list_item)
| OrderedList (items : list list_item)
| CodeBlock (attrs : option (option string)) (content : list inline)
| Blockquote (content : list inline)
| Panel (title : option string) (content : list inline)
| Paragraph (content : list inline).

(** [{"type": list_type or "bulletList", ...}] *)
Definition list_node (k : option list_kind) (items : list list_item) : block :=
  match k with
  | Some KOrdered => OrderedList items
  | _ => BulletList items
  end.

(** [_create_empty_paragraph] *)
Definition empty_paragraph : block := Paragraph [Text "" []].

(** The returned document: [{"version": 1, "type": "doc", "content": ...}].
    A [None] entry of [content] would be a JSON [null]. *)
Record document := { version : nat; content : list (option block) }.

(** ** Diagnostics and the parsing context *)

Inductive ParseErrorType :=
| MALFORMED_TABLE | UNCLOSED_TAG | INVALID_HEADING | MALFORMED_LINK
| INVALID_COLOR | NESTED_FORMATTING | UNKNOWN_MACRO | INVALID_LIST.

Record ParseError := {
  error_type : ParseErrorType;
  error_line : nat;
  column : nat;
  original_text : string;
  parsed_as : string;
  message : string
}.

(** [ParsingContext]; its other fields ([in_table], [in_list], ...) are
    never read or written by the conversion. *)
Record ctx := { errors : list ParseError; line_number : nat }.

Definition initial_ctx : ctx := {| errors := []; line_number := 1 |}.

(** A state monad over [ctx]; [None] is a loop that ran out of fuel. *)
Definition M (A : Type) := ctx -> option (A * ctx).

Definition ret {A} (a : A) : M A := fun c => Some (a, c).
Definition bind {A B} (m : M A) (k : A -> M B) : M B :=
  fun c => match m c with Some (a, c') => k a c' | None => None end.
Definition out_of_fuel {A} : M A := fun _ => None.

Notation "x <- m ;; k" := (bind m (fun x => k))
  (at level 61, m at next level, right associativity).
Notation "' p <- m ;; k" := (bind m (fun x => match x with p => k end))
  (at level 61, p pattern, m at next level, right associativity).

Definition get_line : M nat := fun c => Some (line_number c, c).
Definition set_line (n : nat) : M unit :=
  fun c => Some (tt, {| errors := errors c; line_number := n |}).

(** [_add_error] (logging apart). *)
Definition add_error (t : ParseErrorType) (line col : nat) (orig parsed msg : string)
  : M unit :=
  fun c => Some (tt, {| errors := (errors c ++ [{| error_type := t; error_line := line;
                                                  column := col; original_text := orig;
                                                  parsed_as := parsed; message := msg |}])%list;
                        line_number := line_number c |}).

Fixpoint mapM {A B} (f : A -> M B) (l : list A) : M (list B) :=
  match l with
  | [] => ret []
  | x :: xs => y <- f x ;; ys <- mapM f xs ;; ret (y :: ys)
  end.

(** ** Inline content parser *)

Inductive inline_pattern :=
| P_color | P_link_with_text | P_link_simple | P_image | P_code_block
| P_noformat | P_quote | P_monospace | P_bold | P_italic | P_underline
| P_strikethrough | P_superscript | P_subscript | P_citation | P_line_break.

Definition pattern_of (p : inline_pattern) : matcher :=
  match p with
  | P_color => m_color
  | P_link_with_text => m_link_with_text
  | P_link_simple => m_link_simple
  | P_image => m_delim "!"
  | P_code_block => m_code_block
  | P_noformat => m_noformat
  | P_quote => m_quote
  | P_monospace => m_monospace
  | P_bold => m_delim "*"
  | P_italic => m_delim "_"
  | P_underline => m_delim "+"
  | P_strikethrough => m_delim "-"
  | P_superscript => m_delim "^"
  | P_subscript => m_delim "~"
  | P_citation => m_citation
  | P_line_break => m_line_break
  end.

(** The list [inline_patterns] of [_parse_inline_content], in its order. *)
Definition inline_patterns : list inline_pattern :=
  [P_color; P_link_with_text; P_link_simple; P_image; P_code_block; P_noformat;
   P_quote; P_monospace; P_bold; P_italic; P_underline; P_strikethrough;
   P_superscript; P_subscript; P_citation; P_line_break].

(** [match.group(i)] for a group that participated. *)
Definition grp (g : groups) (i : nat) : string :=
  match nth (i - 1) g None with Some x => x | None => EmptyString end.

Definition named_colors : list string :=
  ["red"; "green"; "blue"; "yellow"; "orange"; "purple"; "pink";
   "brown"; "black"; "white"; "gray"; "grey"; "cyan"; "magenta"].

(** [^#[a-fA-F0-9]{k}$]: [$] also matches before a final newline. *)
Definition hash_hex (k : nat) (s : string) : bool :=
  let t := if ends_with nl_s s then stake (String.length s - 1) s else s in
  starts_with "#" t && (String.length t =? S k) && all_chars is_hex (sdrop 1 t).

(** [_is_valid_color] *)
Definition is_valid_color (color : string) : bool :=
  if starts_with "#" color then hash_hex 3 color || hash_hex 6 color
  else existsb (String.eqb (lower color)) named_colors.

(** [_process_inline_match]; [whole] is [match.group(0)].  Its [except]
    branch is not modelled: no branch below can raise. *)
Definition process_inline_match (name : inline_pattern) (g : groups) (whole : string)
  : M inline :=
  match name with
  | P_bold => ret (Text (grp g 1) [Strong])
  | P_italic => ret (Text (grp g 1) [Em])
  | P_underline => ret (Text (grp g 1) [Underline])
  | P_strikethrough => ret (Text (grp g 1) [Strike])
  | P_superscript => ret (Text (grp g 1) [SubSup "sup"])
  | P_subscript => ret (Text (grp g 1) [SubSup "sub"])
  | P_monospace => ret (Text (grp g 1) [CodeMark])
  | P_citation => ret (Text (grp g 1) [Em])
  | P_color =>
      let color := grp g 1 in
      let text_content := grp g 2 in
      if negb (is_valid_color color) then
        ln <- get_line ;;
        _ <- add_error INVALID_COLOR ln 0 whole ("Plain text: " ++ text_content)
                       ("Invalid color value: " ++ color) ;;
        ret (Text text_content [])
      else ret (Text text_content [TextColor color])
  | P_link_with_text => ret (Text (grp g 1) [Link (grp g 2)])
  | P_link_simple => ret (Text (grp g 1) [Link (grp g 1)])
  | P_image => ret (MediaSingle (grp g 1))
  | P_line_break => ret HardBreak
  | P_code_block | P_noformat | P_quote => ret (Text whole [])
  end.

(** The selection loop: the match starting earliest wins, ties go to the
    pattern listed first ([match.start() < earliest_pos]). *)
Fixpoint earliest_match (ps : list inline_pattern) (s : string)
    (best : option (inline_pattern * nat * (groups * nat))) (best_pos : nat)
  : option (inline_pattern * nat * (groups * nat)) :=
  match ps with
  | [] => best
  | p :: ps' =>
      match search (pattern_of p) s with
      | Some (st, r) =>
          if st <? best_pos then earliest_match ps' s (Some (p, st, r)) st
          else earliest_match ps' s best best_pos
      | None => earliest_match ps' s best best_pos
      end
  end.

(** The [while remaining_text:] loop. *)
Fixpoint inline_loop (fuel : nat) (remaining : string) (acc : list inline)
  : M (list inline) :=
  match fuel with
  | O => out_of_fuel
  | S f =>
      match remaining with
      | EmptyString => ret acc
      | String _ _ =>
          match earliest_match inline_patterns remaining None (String.length remaining) with
          | Some (name, pos, (g, n)) =>
              let before := if 0 <? pos then [Text (stake pos remaining) []] else [] in
              el <- process_inline_match name g (substring pos n remaining) ;;
              inline_loop f (sdrop (pos + n) remaining) (acc ++ before ++ [el])%list
          | None => ret (acc ++ [Text remaining []])%list
          end
      end
  end.

(** [_parse_inline_content] *)
Definition parse_inline_content (text : string) : M (list inline) :=
  if is_blank text then ret []
  else
    content <- inline_loop (S (String.length text)) text [] ;;
    ret (match content with [] => [Text text []] | _ => content end).

(** ** Block parsers *)

(** [_is_block_element_start] *)
Definition is_block_element_start (line0 : string) : bool :=
  let line := strip line0 in
  match m_heading line with Some _ => true | None => false end
  || match m_table_header line with Some _ => true | None => false end
  || match m_table_row line with Some _ => true | None => false end
  || match m_bullet_list line with Some _ => true | None => false end
  || match m_numbered_list line with Some _ => true | None => false end
  || is_horizontal_rule line
  || starts_with "{code" line || starts_with "{noformat" line
  || starts_with "{quote" line || starts_with "{panel" line.

(** The lines [_parse_paragraph] collects from [lines[start_idx:]];
    [first] is [i == start_idx]. *)
Fixpoint collect_paragraph (ls : list string) (first : bool) : list string :=
  match ls with
  | [] => []
  | line :: rest =>
      if is_blank line then []
      else if is_block_element_start line && negb first then []
      else line :: collect_paragraph rest false
  end.

(** [_parse_paragraph] *)
Definition parse_paragraph (lines : list string) (start : nat) : M (option block * nat) :=
  let pl := collect_paragraph (skipn start lines) true in
  match pl with
  | [] => ret (None, 1)
  | _ =>
      c <- parse_inline_content (join nl_s pl) ;;
      match c with
      | [] => ret (Some empty_paragraph, length pl)
      | _ => ret (Some (Paragraph c), length pl)
      end
  end.

Inductive cell_kind := HeaderCells | DataCells.

(** [[cell.strip() for cell in g.split(sep)]], keeping the cells the
    comprehension keeps ([... for cell in cells if cell]). *)
Definition cell_texts (sep g : string) : list string :=
  filter (fun c => negb (String.eqb c "")) (map strip (split_on sep g)).

(** The two branches of the [_parse_table] loop body on [line.strip()]:
    the cell kind and the cell texts. *)
Definition classify_table_line (line : string) : option (cell_kind * list string) :=
  match m_table_header line with
  | Some g => Some (HeaderCells, cell_texts "||" g)
  | None =>
      match m_table_row line with
      | Some g => Some (DataCells, cell_texts "|" g)
      | None => None
      end
  end.

(** The data-row reading of the specification's words, for comparison
    with [classify_table_line]: split the line on a single pipe, trim each
    cell, and drop only an empty first and an empty last cell. *)
Definition spec_data_row_cells (line : string) : list string :=
  let drop_empty_first (l : list string) :=
    match l with EmptyString :: r => r | _ => l end in
  rev (drop_empty_first (rev (drop_empty_first (map strip (split_on "|" line))))).

Definition make_cell (k : cell_kind) (text : string) : M cell :=
  c <- parse_inline_content text ;;
  ret (match k with HeaderCells => TableHeader c | DataCells => TableCell c end).

(** The [while] loop of [_parse_table] over [lines[start_idx:]]: rows
    built and lines consumed. *)
Fixpoint table_loop (ls : list string) : M (list row * nat) :=
  match ls with
  | [] => ret ([], 0)
  | l :: rest =>
      match classify_table_line (strip l) with
      | Some (k, cells) =>
          cs <- mapM (make_cell k) cells ;;
          '(rows, n) <- table_loop rest ;;
          ret (TableRow cs :: rows, S n)
      | None => ret ([], 0)
      end
  end.

(** [_parse_table]; its [except] branch is not modelled: nothing in the
    [try] can raise. *)
Definition parse_table (lines : list string) (start : nat) : M (option block * nat) :=
  '(rows, n) <- table_loop (skipn start lines) ;;
  match rows with
  | [] => parse_paragraph lines start
  | _ => ret (Some (Table rows), n)
  end.

(** The [while] loop of [_parse_list] over [lines[start_idx:]]; [kind] is
    [list_type].  Returns the final [list_type], the items and the lines
    consumed.  Lines are matched unstripped. *)
Fixpoint list_loop (ls : list string) (kind : option list_kind)
  : M (option list_kind * list list_item * nat) :=
  match ls with
  | [] => ret (kind, [], 0)
  | line :: rest =>
      match m_bullet_list line with
      | Some (_, text) =>
          match kind with
          | Some KOrdered => ret (kind, [], 0)
          | _ =>
              c <- parse_inline_content text ;;
              '(k, items, n) <- list_loop rest (Some KBullet) ;;
              ret (k, ListItem c :: items, S n)
          end
      | None =>
          match m_numbered_list line with
          | Some (_, text) =>
              match kind with
              | Some KBullet => ret (kind, [], 0)
              | _ =>
                  c <- parse_inline_content text ;;
                  '(k, items, n) <- list_loop rest (Some KOrdered) ;;
                  ret (k, ListItem c :: items, S n)
              end
          | None =>
              if is_blank line then
                '(k, items, n) <- list_loop rest kind ;;
                ret (k, items, S n)
              else ret (kind, [], 0)
          end
      end
  end.

(** [_parse_list] *)
Definition parse_list (lines : list string) (start : nat) : M (option block * nat) :=
  '(k, items, n) <- list_loop (skipn start lines) None ;;
  match items with
  | [] => parse_paragraph lines start
  | _ => ret (Some (list_node k items), n)
  end.

(** [_parse_code_block_from_match] *)
Definition parse_code_block_from_match (g : groups) : block :=
  let language := match nth 0 g None with Some l => l | None => EmptyString end in
  let code_content := strip (grp g 2) in
  CodeBlock (Some (match language with EmptyString => None | _ => Some language end))
            [Text code_content []].

(** [_parse_noformat_block] *)
Definition parse_noformat_block (g : groups) : block :=
  CodeBlock None [Text (grp g 1) []].

(** [_parse_quote_block] *)
Definition parse_quote_block (g : groups) : M block :=
  c <- parse_inline_content (strip (grp g 1)) ;;
  ret (Blockquote c).

(** [_parse_panel_block] *)
Definition parse_panel_block (g : groups) : M block :=
  let title := match nth 0 g None with Some t => t | None => EmptyString end in
  c <- parse_inline_content (strip (grp g 2)) ;;
  ret (Panel (match title with EmptyString => None | _ => Some title end) c).

(** [pattern.search(text)] succeeding at position 0. *)
Definition match_at_start (m : matcher) (s : string) : option (groups * nat) :=
  match search m s with
  | Some (0, r) => Some r
  | _ => None
  end.

(** Lines consumed by a fenced block: [match.group(0).count('\n') + 1]. *)
Definition fenced_lines (s : string) (n : nat) : nat := count_nl (stake n s) + 1.

(** [_parse_block_element]: [None] when no block element starts here.  The
    returned element can itself be [None] when a table or list falls back to
    a paragraph that collects no line. *)
Definition parse_block_element (lines : list string) (start : nat)
  : M (option (option block * nat)) :=
  let line := strip (nth start lines EmptyString) in
  match m_heading line with
  | Some (level, text) =>
      c <- parse_inline_content (strip text) ;;
      ret (Some (Some (Heading level c), 1))
  | None =>
  if is_horizontal_rule line then ret (Some (Some Rule, 1)) else
  if match m_table_header line, m_table_row line with
     | None, None => false | _, _ => true end
  then r <- parse_table lines start ;; ret (Some r) else
  if match m_bullet_list line, m_numbered_list line with
     | None, None => false | _, _ => true end
  then r <- parse_list lines start ;; ret (Some r) else
  let rest := join nl_s (skipn start lines) in
  match match_at_start m_code_block rest with
  | Some (g, n) => ret (Some (Some (parse_code_block_from_match g), fenced_lines rest n))
  | None =>
  match match_at_start m_noformat rest with
  | Some (g, n) => ret (Some (Some (parse_noformat_block g), fenced_lines rest n))
  | None =>
  match match_at_start m_quote rest with
  | Some (g, n) => b <- parse_quote_block g ;; ret (Some (Some b, fenced_lines rest n))
  | None =>
  match match_at_start m_panel rest with
  | Some (g, n) => b <- parse_panel_block g ;; ret (Some (Some b, fenced_lines rest n))
  | None => ret None
  end end end end
  end.

(** ** Document builder *)

(** The [while i < len(lines)] loop of [_parse_document]. *)
Fixpoint doc_loop (fuel : nat) (lines : list string) (i : nat) (acc : list (option block))
  : M (list (option block)) :=
  match fuel with
  | O => out_of_fuel
  | S f =>
      if i <? length lines then
        _ <- set_line (S i) ;;
        if is_blank (nth i lines EmptyString) then doc_loop f lines (S i) acc
        else
          r <- parse_block_element lines i ;;
          match r with
          | Some (el, n) => doc_loop f lines (i + n) (acc ++ [el])%list
          | None =>
              '(p, n) <- parse_paragraph lines i ;;
              match p with
              | Some b => doc_loop f lines (i + n) (acc ++ [Some b])%list
              | None => doc_loop f lines (i + n) acc
              end
          end
      else ret acc
  end.

(** [_parse_document] *)
Definition parse_document (text : string) : M (list (option block)) :=
  let lines := split_nl text in
  content <- doc_loop (S (length lines)) lines 0 [] ;;
  ret (match content with [] => [Some empty_paragraph] | _ => content end).

(** [wiki_text.replace('\r\n', '\n').replace('\r', '\n')] *)
Definition normalize_newlines (s : string) : string :=
  replace (chr cr) nl_s (replace (String cr nl_s) nl_s s).

(** [convert_text]: the document and the diagnostics collected in the
    fresh context ([self.context.errors]). *)
Definition convert_text (wiki_text : string) : option (document * list ParseError) :=
  match parse_document (normalize_newlines wiki_text) initial_ctx with
  | Some (c, st) => Some ({| version := 1; content := c |}, errors st)
  | None => None
  end.

(** ** [get_error_summary] *)

(** [ParseErrorType.value] *)
Definition error_type_value (t : ParseErrorType) : string :=
  match t with
  | MALFORMED_TABLE => "malformed_table"
  | UNCLOSED_TAG => "unclosed_tag"
  | INVALID_HEADING => "invalid_heading"
  | MALFORMED_LINK => "malformed_link"
  | INVALID_COLOR => "invalid_color"
  | NESTED_FORMATTING => "nested_formatting"
  | UNKNOWN_MACRO => "unknown_macro"
  | INVALID_LIST => "invalid_list"
  end.

(** The dictionary [get_error_summary] builds for one error. *)
Record summary_entry := {
  entry_line : nat;
  entry_column : nat;
  entry_original : string;
  entry_parsed_as : string;
  entry_message : string
}.

Definition summary_entry_of (e : ParseError) : summary_entry :=
  {| entry_line := error_line e; entry_column := column e;
     entry_original := original_text e; entry_parsed_as := parsed_as e;
     entry_message := message e |}.

(** [errors_by_type] as an association list in insertion order (a Python
    dict): a new key goes last, an existing key's list is appended to. *)
Fixpoint add_to_group (k : string) (x : summary_entry)
    (groups : list (string * list summary_entry)) : list (string * list summary_entry) :=
  match groups with
  | [] => [(k, [x])]
  | (k', xs) :: gs =>
      if String.eqb k k' then (k', (xs ++ [x])%list) :: gs
      else (k', xs) :: add_to_group k x gs
  end.

Definition errors_by_type (errs : list ParseError) : list (string * list summary_entry) :=
  fold_left (fun g e => add_to_group (error_type_value (error_type e)) (summary_entry_of e) g)
            errs [].

Record error_summary := {
  total_errors : nat;
  summary_by_type : list (string * list summary_entry)
}.

(** [get_error_summary] over [self.context.errors]. *)
Definition get_error_summary (errs : list ParseError) : error_summary :=
  {| total_errors := length errs; summary_by_type := errors_by_type errs |}.

Fixpoint assoc {B} (k : string) (l : list (string * B)) : option B :=
  match l with
  | [] => None
  | (k', v) :: r => if String.eqb k k' then Some v else assoc k r
  end.

(** * The sibling converter [src/wiki2adf.py] ([JiraWikiToADF])

    Its block parsers and the [parse_file] loop, over the lines
    [f.readlines()] returns (the file read and the JSON and log writes are
    left out).  [parse_inline] is a chain of [re.sub] calls that splices
    JSON strings into the text; it is not modelled and the block parsers
    are taken over an arbitrary [parse_inline]. *)
Module Wiki2ADF.

Inductive wpara (I : Type) :=
| WPara (content : list I)                (** [{"type": "paragraph", "content": parse_inline(..)}] *)
| WTitlePara (title : string).            (** the panel title paragraph, one plain text node *)

Record wrow (I : Type) := {
  row_is_header : bool;                   (** [tableHeader] or [tableRow] *)
  row_cells : list (list I)               (** [tableCell]s, one paragraph each *)
}.

Inductive wnode (I : Type) :=
| WCodeBlock (attrs : option (option string)) (text : string)
    (** [None]: no [attrs] key; [Some None]: [{}]; [Some (Some l)]: [{"language": l}] *)
| WHeading (level : nat) (content : list I)
| WRule
| WList (list_type : list_kind) (items : list (list I))
| WEmptyNode                              (** the [{}] of [parse_list]'s error branch *)
| WTable (rows : list (wrow I))
| WBlockquote (content : list I)
| WPanel (panel_type : string) (content : list (wpara I))
| WParagraph (content : list I).

Arguments WPara {I} content.
Arguments WTitlePara {I} title.
Arguments Build_wrow {I} row_is_header row_cells.
Arguments row_is_header {I} _.
Arguments row_cells {I} _.
Arguments WCodeBlock {I} attrs text.
Arguments WHeading {I} level content.
Arguments WRule {I}.
Arguments WList {I} list_type items.
Arguments WEmptyNode {I}.
Arguments WTable {I} rows.
Arguments WBlockquote {I} content.
Arguments WPanel {I} panel_type content.
Arguments WParagraph {I} content.

(** [str.rstrip('\n')] *)
Fixpoint rstrip_nl (s : string) : string :=
  match s with
  | EmptyString => EmptyString
  | String c r =>
      match rstrip_nl r with
      | EmptyString => if Ascii.eqb c nl then EmptyString else String c EmptyString
      | r' => String c r'
      end
  end.

(** [str(n)] *)
Definition str_nat (n : nat) : string := NilZero.string_of_uint (Nat.to_uint n).

(** [log_error]: [self.errors.append(msg)] *)
Definition log_error (errs : list string) (msg : string) : list string := (errs ++ [msg])%list.

(** The body loops of the fenced blocks: the lines before the first one
    [stop] accepts, each with [rstrip('\n')]. *)
Fixpoint collect_until (stop : string -> bool) (ls : list string) : list string :=
  match ls with
  | [] => []
  | l :: r => if stop l then [] else rstrip_nl l :: collect_until stop r
  end.

(** [re.match(r"\{code:([^}|]+)", first_line)]: group 1. *)
Definition m_code_lang (s : string) : option string :=
  if starts_with "{code:" s then
    match fst (span (fun x => negb (Ascii.eqb x "}") && negb (Ascii.eqb x "|")) (sdrop 6 s)) with
    | EmptyString => None
    | run => Some run
    end
  else None.

(** [title=([^|}]+)], anchored (searched with [search]). *)
Definition m_title : matcher := fun s =>
  if starts_with "title=" s then
    match fst (span (fun x => negb (Ascii.eqb x "|") && negb (Ascii.eqb x "}")) (sdrop 6 s)) with
    | EmptyString => None
    | run => Some ([Some run], 6 + String.length run)
    end
  else None.

(** [^(\*|\-|\#)+\s+] followed by the group [.*]: group 1 is the last
    marker of the run, group 2 the text after the whitespace up to a
    newline. *)
Definition is_marker (x : ascii) : bool :=
  Ascii.eqb x "*" || Ascii.eqb x "-" || Ascii.eqb x "#".

Definition m_list_line (line : string) : option (string * string) :=
  let (marks, r) := span is_marker line in
  match marks with
  | EmptyString => None
  | _ =>
      let (sp, t) := span is_space r in
      match sp with
      | EmptyString => None
      | _ => Some (last_char marks, fst (span (fun x => negb (Ascii.eqb x nl)) t))
      end
  end.

(** [re.match(r"^(\*|-|\#)+\s+", line)] *)
Definition is_list_start (line : string) : bool :=
  let (marks, r) := span is_marker line in
  match marks, r with
  | EmptyString, _ => false
  | _, String c _ => is_space c
  | _, EmptyString => false
  end.

(** [^h([1-6])\.\s+] followed by the group [.*]: the level and group 2. *)
Definition m_heading_line (line : string) : option (nat * string) :=
  match line with
  | String h (String d (String dot rest)) =>
      if Ascii.eqb h "h" && Ascii.eqb dot "." &&
         (49 <=? nat_of_ascii d) && (nat_of_ascii d <=? 54) then
        let (sp, t) := span is_space rest in
        match sp with
        | EmptyString => None
        | _ => Some (nat_of_ascii d - 48, fst (span (fun x => negb (Ascii.eqb x nl)) t))
        end
      else None
  | _ => None
  end.

(** [re.match(r"^(h[1-6]\.|----|\* |\# |bq\. |\{|\|)", line)] *)
Definition para_stop (line : string) : bool :=
  match line with
  | String h (String d (String dot _)) =>
      Ascii.eqb h "h" && Ascii.eqb dot "." && (49 <=? nat_of_ascii d) && (nat_of_ascii d <=? 54)
  | _ => false
  end
  || starts_with "----" line || starts_with "* " line || starts_with "# " line
  || starts_with "bq. " line || starts_with "{" line || starts_with "|" line.

(** The inner loop of the paragraph branch of [parse_file]. *)
Fixpoint collect_para (ls : list string) : list string :=
  match ls with
  | [] => []
  | l :: r => if is_blank l || para_stop l then [] else rstrip_nl l :: collect_para r
  end.

Section WithInline.

Variable inl : Type.
Variable parse_inline : string -> list inl.

(** [parse_code_block]: the node, the index after the block, the errors. *)
Definition parse_code_block (lines : list string) (start : nat) (errs : list string)
  : wnode inl * nat * list string :=
  let first_line := strip (nth start lines EmptyString) in
  let language := m_code_lang first_line in
  let content := collect_until (fun l => starts_with "{code}" (strip l)) (skipn (S start) lines) in
  let i := S start + length content in
  let errs' := if length lines <=? i
               then log_error errs ("Line " ++ str_nat (S start) ++ ": Unclosed {code} block; closing at EOF")
               else errs in
  (WCodeBlock (Some language) (join nl_s content), S i, errs').

(** [parse_noformat_block] *)
Definition parse_noformat_block (lines : list string) (start : nat) (errs : list string)
  : wnode inl * nat * list string :=
  let content := collect_until (fun l => String.eqb (strip l) "{noformat}") (skipn (S start) lines) in
  let i := S start + length content in
  let errs' := if length lines <=? i
               then log_error errs ("Line " ++ str_nat (S start) ++ ": Unclosed {noformat} block; closing at EOF")
               else errs in
  (WCodeBlock None (join nl_s content), S i, errs').

(** [parse_panel_block]; [panel_type] is always ["info"]. *)
Definition parse_panel_block (lines : list string) (start : nat) (errs : list string)
  : wnode inl * nat * list string :=
  let first_line := strip (nth start lines EmptyString) in
  let panel_title := match search m_title first_line with
                     | Some (_, (g, _)) => nth 0 g None
                     | None => None
                     end in
  let content := collect_until (fun l => starts_with "{panel}" (strip l)) (skipn (S start) lines) in
  let i := S start + length content in
  let errs' := if length lines <=? i
               then log_error errs ("Line " ++ str_nat (S start) ++ ": Unclosed {panel} block; closing at EOF")
               else errs in
  let paras := map (fun p => WPara (parse_inline p)) content in
  let paras' := match panel_title with
                | Some (String _ _ as t) => WTitlePara t :: paras
                | _ => paras
                end in
  (WPanel "info" paras', S i, errs').

(** The [while] loop of [parse_list]: the last list type set, the items,
    the lines consumed. *)
Fixpoint list_items (ls : list string) (list_type : option list_kind)
  : option list_kind * list (list inl) * nat :=
  match ls with
  | [] => (list_type, [], 0)
  | line :: rest =>
      match m_list_line line with
      | None => (list_type, [], 0)
      | Some (marker, text) =>
          let lt := if starts_with "#" marker then KOrdered else KBullet in
          let '(t, items, n) := list_items rest (Some lt) in
          (t, parse_inline text :: items, S n)
      end
  end.

(** [parse_list] *)
Definition parse_list (lines : list string) (start : nat) (errs : list string)
  : wnode inl * nat * list string :=
  let '(lt, items, n) := list_items (skipn start lines) None in
  match lt with
  | None => (WEmptyNode, start + n, log_error errs ("Line " ++ str_nat (S start) ++ ": List parsing error"))
  | Some k => (WList k items, start + n, errs)
  end.

(** The cells of one table line: the pieces of [re.split(r"\|", line)]
    that are not empty ([if cell != ""]) and not blank ([continue]). *)
Definition table_cells (line : string) : list (list inl) :=
  map (fun c => parse_inline (strip c))
      (filter (fun c => negb (String.eqb (strip c) ""))
              (filter (fun c => negb (String.eqb c "")) (split_on "|" line))).

Fixpoint table_rows (ls : list string) : list (wrow inl) * nat :=
  match ls with
  | [] => ([], 0)
  | l :: rest =>
      let line := rstrip_nl l in
      if starts_with "||" line || starts_with "|" line then
        let row := Build_wrow (starts_with "||" line) (table_cells line) in
        let (rows, n) := table_rows rest in (row :: rows, S n)
      else ([], 0)
  end.

(** [parse_table] *)
Definition parse_table (lines : list string) (start : nat) (errs : list string)
  : wnode inl * nat * list string :=
  let (rows, n) := table_rows (skipn start lines) in
  (WTable rows, start + n,
   match rows with
   | [] => log_error errs ("Line " ++ str_nat (S start) ++ ": Table parsing found no rows.")
   | _ => errs
   end).

(** The [while i < len(lines)] loop of [parse_file]. *)
Fixpoint file_loop (fuel : nat) (lines : list string) (i : nat)
    (content : list (wnode inl)) (errs : list string)
  : option (list (wnode inl) * list string) :=
  match fuel with
  | O => None
  | S f =>
      if i <? length lines then
        let line := rstrip_nl (nth i lines EmptyString) in
        if starts_with "{code" line then
          let '(b, j, errs') := parse_code_block lines i errs in
          file_loop f lines j (content ++ [b]) errs'
        else if String.eqb (strip line) "{noformat}" then
          let '(b, j, errs') := parse_noformat_block lines i errs in
          file_loop f lines j (content ++ [b]) errs'
        else if starts_with "{panel" line then
          let '(b, j, errs') := parse_panel_block lines i errs in
          file_loop f lines j (content ++ [b]) errs'
        else match m_heading_line line with
        | Some (level, text) =>
            file_loop f lines (S i) (content ++ [WHeading level (parse_inline text)]) errs
        | None =>
        if String.eqb (strip line) "----" then
          file_loop f lines (S i) (content ++ [WRule]) errs
        else if is_list_start line then
          let '(b, j, errs') := parse_list lines i errs in
          file_loop f lines j (content ++ [b]) errs'
        else if starts_with "||" line || starts_with "|" line then
          let '(b, j, errs') := parse_table lines i errs in
          file_loop f lines j (content ++ [b]) errs'
        else if starts_with "bq. " line then
          file_loop f lines (S i) (content ++ [WBlockquote (parse_inline (sdrop 4 line))]) errs
        else if String.eqb (strip line) "" then
          file_loop f lines (S i) content errs
        else
          let more := collect_para (skipn (S i) lines) in
          let paragraph_text := strip (join " " (line :: more)) in
          file_loop f lines (S i + length more)
                    (content ++ [WParagraph (parse_inline paragraph_text)]) errs
        end
      else Some (content, errs)
  end%list.

(** [parse_file] on the lines read: the [content] of the document written
    and the errors written to the log. *)
Definition parse_file (lines : list string) : option (list (wnode inl) * list string) :=
  file_loop (S (length lines)) lines 0 [] [].

End WithInline.

Arguments parse_code_block {inl} lines start errs.
Arguments parse_noformat_block {inl} lines start errs.
Arguments parse_panel_block {inl} parse_inline lines start errs.
Arguments list_items {inl} parse_inline ls list_type.
Arguments parse_list {inl} parse_inline lines start errs.
Arguments table_cells {inl} parse_inline line.
Arguments table_rows {inl} parse_inline ls.
Arguments parse_table {inl} parse_inline lines start errs.
Arguments file_loop {inl} parse_inline fuel lines i content errs.
Arguments parse_file {inl} parse_inline lines.

(** The list type [parse_list] sets for an item: [marker[0] == "#"]. *)
Definition list_kind_of (marker : string) : list_kind :=
  if starts_with "#" marker then KOrdered else KBullet.

(** The table-line test of [parse_file] and [parse_table]. *)
Definition is_table_line (line : string) : bool :=
  starts_with "||" line || starts_with "|" line.

(** An "Unclosed" error of a fenced block, naming a line [1..n]. *)
Definition unclosed_msg (n : nat) (m : string) : Prop :=
  exists k kind, 1 <= k <= n /\ In kind ["code"; "noformat"; "panel"] /\
    m = ("Line " ++ str_nat k ++ ": Unclosed {" ++ kind ++ "} block; closing at EOF")%string.

End Wiki2ADF.


(** * Proofs *)

(** ** String lemmas *)

Lemma length_sdrop : forall k s, String.length (sdrop k s) = String.length s - k.
Proof.
  induction k as [|k IH]; intros [|c s]; simpl; try lia. apply IH.
Qed.

Lemma stake_sdrop : forall k s, stake k s ++ sdrop k s = s.
Proof.
  induction k as [|k IH]; intros [|c s]; simpl; try reflexivity.
  rewrite IH. reflexivity.
Qed.

Lemma sdrop_app : forall u v, sdrop (String.length u) (u ++ v) = v.
Proof. induction u as [|c u IH]; intros v; simpl; auto. Qed.

Lemma stake_app : forall u v, stake (String.length u) (u ++ v) = u.
Proof. induction u as [|c u IH]; intros v; simpl; [destruct v|]; auto. rewrite IH; auto. Qed.

Lemma starts_with_app : forall p s, starts_with p (p ++ s) = true.
Proof.
  induction p as [|c p IH]; intros s; simpl; auto.
  rewrite Ascii.eqb_refl, IH. reflexivity.
Qed.

Lemma all_chars_app : forall f u v, all_chars f (u ++ v) = all_chars f u && all_chars f v.
Proof.
  induction u as [|c u IH]; intros v; simpl; auto.
  rewrite IH, andb_assoc. reflexivity.
Qed.

Lemma append_assoc_s : forall u v w : string, (u ++ v) ++ w = u ++ (v ++ w).
Proof. induction u as [|c u IH]; intros; simpl; [reflexivity | rewrite IH; reflexivity]. Qed.

Lemma append_empty_r : forall u : string, u ++ "" = u.
Proof. induction u as [|c u IH]; simpl; [reflexivity | rewrite IH; reflexivity]. Qed.

Lemma length_append_s : forall u v, String.length (u ++ v) = String.length u + String.length v.
Proof. induction u as [|c u IH]; intros v; simpl; auto. Qed.

(** A maximal run stops at the first character outside the class. *)
Lemma span_app : forall f u c r,
  all_chars f u = true -> f c = false -> span f (u ++ String c r) = (u, String c r).
Proof.
  induction u as [|a u IH]; intros c r Hu Hc; simpl in *.
  - rewrite Hc. reflexivity.
  - apply andb_prop in Hu as [Ha Hu]. rewrite Ha, (IH c r Hu Hc). reflexivity.
Qed.

(** ** Reasoning about the context monad *)

(** [runs m Q]: from every context, [m] finishes (never runs out of fuel)
    and its result satisfies [Q]. *)
Definition runs {A} (m : M A) (Q : A -> Prop) : Prop :=
  forall c, exists a c', m c = Some (a, c') /\ Q a.

Lemma runs_ret {A} (a : A) (Q : A -> Prop) : Q a -> runs (ret a) Q.
Proof. intros HQ c. exists a, c. split; auto. Qed.

Lemma runs_bind {A B} (m : M A) (k : A -> M B) (P : A -> Prop) (Q : B -> Prop) :
  runs m P -> (forall a, P a -> runs (k a) Q) -> runs (bind m k) Q.
Proof.
  intros Hm Hk c. destruct (Hm c) as (a & c' & E & Ha).
  destruct (Hk a Ha c') as (b & c'' & E' & Hb).
  exists b, c''. unfold bind. rewrite E. auto.
Qed.

Lemma runs_weaken {A} (m : M A) (P Q : A -> Prop) :
  runs m P -> (forall a, P a -> Q a) -> runs m Q.
Proof. intros Hm HPQ c. destruct (Hm c) as (a & c' & E & Ha). eauto. Qed.

Lemma runs_set_line n : runs (set_line n) (fun _ => True).
Proof. intros c. eexists _, _. split; [reflexivity | exact I]. Qed.

Lemma runs_get_line : runs get_line (fun _ => True).
Proof. intros c. eexists _, _. split; [reflexivity | exact I]. Qed.

Lemma runs_add_error t l col o p m : runs (add_error t l col o p m) (fun _ => True).
Proof. intros c. eexists _, _. split; [reflexivity | exact I]. Qed.

Lemma runs_mapM {A B} (f : A -> M B) (l : list A) :
  (forall x, runs (f x) (fun _ => True)) -> runs (mapM f l) (fun _ => True).
Proof.
  intros Hf. induction l as [|x l IH]; simpl.
  - apply runs_ret; exact I.
  - eapply runs_bind; [apply Hf|]. intros y _.
    eapply runs_bind; [apply IH|]. intros ys _. apply runs_ret; exact I.
Qed.

(** ** Every inline pattern consumes at least one character *)

Ltac split_matches :=
  repeat match goal with
         | H : context [match ?x with _ => _ end] |- _ =>
             let E := fresh "E" in destruct x eqn:E
         end.

Lemma pattern_len_pos : forall p s g n, pattern_of p s = Some (g, n) -> 1 <= n.
Proof.
  intros p s g n H.
  destruct p; cbv beta delta [pattern_of m_color m_link_with_text m_link_simple m_delim
    m_code_block m_noformat m_quote m_fenced m_monospace m_citation m_line_break lazy_body] in H;
    cbv zeta in H; split_matches; try discriminate;
    repeat match goal with
           | H : Some _ = Some _ |- _ => injection H; clear H; intros; subst
           end;
    simpl in *; lia.
Qed.

Lemma search_from_found : forall m s p st g n,
  search_from m s p = Some (st, (g, n)) -> exists t, m t = Some (g, n).
Proof.
  intros m s. induction s as [|c s IH]; intros p st g n H; simpl in H;
    destruct (m _) as [[g' n']|] eqn:E; try discriminate.
  - inversion H; subst. eauto.
  - inversion H; subst. eauto.
  - eapply IH; eauto.
Qed.

Definition match_len_pos (x : option (inline_pattern * nat * (groups * nat))) : Prop :=
  match x with Some (_, _, (_, n)) => 1 <= n | None => True end.

Lemma earliest_match_len_pos : forall ps s best bp,
  match_len_pos best -> match_len_pos (earliest_match ps s best bp).
Proof.
  induction ps as [|p ps IH]; intros s best bp Hb; simpl; auto.
  destruct (search (pattern_of p) s) as [[st [g n]]|] eqn:E; [|auto].
  destruct (st <? bp); apply IH; auto.
  apply search_from_found in E as [t Ht]. simpl. eapply pattern_len_pos; eauto.
Qed.

Lemma runs_process_inline_match name g w :
  runs (process_inline_match name g w) (fun _ => True).
Proof.
  destruct name; simpl; try (apply runs_ret; exact I).
  destruct (negb (is_valid_color (grp g 1))).
  - eapply runs_bind; [apply runs_get_line|]. intros ln _.
    eapply runs_bind; [apply runs_add_error|]. intros u _. apply runs_ret; exact I.
  - apply runs_ret; exact I.
Qed.

Lemma inline_loop_step : forall f ch r acc,
  inline_loop (S f) (String ch r) acc =
  match earliest_match inline_patterns (String ch r) None (String.length (String ch r)) with
  | Some (name, pos, (g, n)) =>
      let before := if 0 <? pos then [Text (stake pos (String ch r)) []] else [] in
      el <- process_inline_match name g (substring pos n (String ch r)) ;;
      inline_loop f (sdrop (pos + n) (String ch r)) (acc ++ before ++ [el])%list
  | None => ret (acc ++ [Text (String ch r) []])%list
  end.
Proof. reflexivity. Qed.

(** The inline scan finishes within [length + 1] rounds, and adds at least
    one node to its accumulator when text remains. *)
Lemma inline_loop_runs : forall f rem acc,
  String.length rem < f ->
  runs (inline_loop f rem acc)
       (fun r => exists t, r = (acc ++ t)%list /\ (rem <> EmptyString -> t <> [])).
Proof.
  induction f as [|f IH]; intros rem acc Hf; [lia|].
  destruct rem as [|ch r].
  - apply runs_ret. exists []. rewrite app_nil_r. split; [reflexivity | congruence].
  - rewrite inline_loop_step.
    pose proof (earliest_match_len_pos inline_patterns (String ch r) None
                  (String.length (String ch r)) I) as Hpos.
    destruct (earliest_match _ _ _ _) as [[[name pos] [g n]]|]; cbv zeta.
    + simpl in Hpos.
      eapply runs_bind; [apply runs_process_inline_match|]. intros el _.
      eapply runs_weaken; [apply IH|].
      * rewrite length_sdrop. simpl String.length in *. lia.
      * intros res [t [-> _]].
        exists ((if 0 <? pos then [Text (stake pos (String ch r)) []] else []) ++ [el] ++ t)%list.
        split; [rewrite <- !app_assoc; reflexivity|].
        intros _. destruct (0 <? pos); simpl; congruence.
    + apply runs_ret. eexists; split; [reflexivity | congruence].
Qed.

(** [_parse_inline_content] always returns, and returns [[]] exactly on
    blank text. *)
Lemma parse_inline_content_runs : forall text,
  runs (parse_inline_content text) (fun r => r = [] <-> is_blank text = true).
Proof.
  intros text. unfold parse_inline_content.
  destruct (is_blank text) eqn:B.
  - apply runs_ret. tauto.
  - eapply runs_bind; [apply inline_loop_runs; lia|].
    intros content _. apply runs_ret.
    destruct content; split; intros; discriminate.
Qed.

(** ** Block parsers always return, and consume at least one line *)

Lemma runs_make_cell k text : runs (make_cell k text) (fun _ => True).
Proof.
  unfold make_cell. eapply runs_bind; [apply parse_inline_content_runs|].
  intros c _. apply runs_ret; exact I.
Qed.

Lemma parse_paragraph_runs : forall lines start,
  runs (parse_paragraph lines start)
       (fun '(b, n) => 1 <= n /\ (b = None \/ exists c, b = Some (Paragraph c))).
Proof.
  intros lines start. unfold parse_paragraph.
  destruct (collect_paragraph (skipn start lines) true) as [|l ls] eqn:E.
  - apply runs_ret. auto.
  - eapply runs_bind; [apply parse_inline_content_runs|]. intros c _.
    destruct c; apply runs_ret; simpl; split; try lia; right; eexists; reflexivity.
Qed.

Lemma table_loop_runs : forall ls,
  runs (table_loop ls) (fun '(rows, n) => length rows = n).
Proof.
  induction ls as [|l ls IH]; cbn [table_loop].
  - apply runs_ret. reflexivity.
  - destruct (classify_table_line (strip l)) as [[k cells]|].
    + eapply runs_bind; [apply runs_mapM; intros; apply runs_make_cell|]. intros cs _.
      eapply runs_bind; [apply IH|]. intros [rows n] Hn.
      apply runs_ret. simpl. congruence.
    + apply runs_ret. reflexivity.
Qed.

Lemma parse_table_runs : forall lines start,
  runs (parse_table lines start) (fun '(_, n) => 1 <= n).
Proof.
  intros lines start. unfold parse_table.
  eapply runs_bind; [apply table_loop_runs|]. intros [rows n] Hn.
  destruct rows as [|r rows].
  - eapply runs_weaken; [apply parse_paragraph_runs|]. intros [b k] [H _]. exact H.
  - apply runs_ret. simpl in Hn. lia.
Qed.

(** The marker family [_parse_list] sees on a line: bullet is tried first. *)
Definition line_family (line : string) : option list_kind :=
  match m_bullet_list line with
  | Some _ => Some KBullet
  | None =>
      match m_numbered_list line with
      | Some _ => Some KOrdered
      | None => None
      end
  end.

Lemma m_list_item_not_blank : forall k line r,
  is_space k = false -> m_list_item k line = Some r -> is_blank line = false.
Proof.
  intros k [|c s] r Hk H; unfold m_list_item in H; simpl in H; [discriminate|].
  destruct (Ascii.eqb c k) eqn:Ec.
  - apply Ascii.eqb_eq in Ec; subst c. unfold is_blank. simpl. rewrite Hk. reflexivity.
  - discriminate.
Qed.

Lemma line_family_not_blank : forall line f,
  line_family line = Some f -> is_blank line = false.
Proof.
  intros line f. unfold line_family.
  destruct (m_bullet_list line) eqn:B.
  - intros _. apply (m_list_item_not_blank "*" line p); [reflexivity | exact B].
  - destruct (m_numbered_list line) eqn:N; [|discriminate].
    intros _. apply (m_list_item_not_blank "#" line p); [reflexivity | exact N].
Qed.

(** What the [_parse_list] loop guarantees about the lines it consumed
    ([j < n]) and the line it stopped at ([n]). *)
Definition list_loop_post (ls : list string) (kind : option list_kind)
    (r : option list_kind * list list_item * nat) : Prop :=
  let '(k, items, n) := r in
  (kind <> None -> k = kind) /\
  (items <> [] -> k <> None) /\
  length items <= n /\
  (forall j, j < n -> is_blank (nth j ls EmptyString) = true \/
                      (k <> None /\ line_family (nth j ls EmptyString) = k)) /\
  (n < length ls -> is_blank (nth n ls EmptyString) = false /\
     forall f, line_family (nth n ls EmptyString) = Some f -> k <> None /\ k <> Some f).

Lemma list_post_nil : forall kind, list_loop_post [] kind (kind, [], 0).
Proof.
  intros kind. split; [|split; [|split; [|split]]]; simpl; intros; try lia; congruence.
Qed.

Lemma list_post_item : forall line rest kind k0 k items n c,
  line_family line = Some k0 -> (kind = None \/ kind = Some k0) ->
  list_loop_post rest (Some k0) (k, items, n) ->
  list_loop_post (line :: rest) kind (k, ListItem c :: items, S n).
Proof.
  intros line rest kind k0 k items n c Hfam Hkind (H1 & H2 & H3 & H4 & H5).
  assert (Hk : k = Some k0) by (apply H1; discriminate). subst k.
  split; [|split; [|split; [|split]]].
  - intros Hne. destruct Hkind as [-> | ->]; [congruence | reflexivity].
  - intros _. discriminate.
  - simpl. lia.
  - intros [|j] Hj; simpl.
    + right. split; [discriminate | exact Hfam].
    + apply H4. lia.
  - simpl. intros Hn. apply H5. lia.
Qed.

Lemma list_post_switch : forall line rest k0 k1,
  line_family line = Some k1 -> k0 <> k1 ->
  list_loop_post (line :: rest) (Some k0) (Some k0, [], 0).
Proof.
  intros line rest k0 k1 Hfam Hne.
  split; [|split; [|split; [|split]]].
  - intros _. reflexivity.
  - intros _. discriminate.
  - simpl. lia.
  - intros j Hj. lia.
  - simpl. intros _. split; [eapply line_family_not_blank; exact Hfam|].
    rewrite Hfam. intros f Hf. injection Hf as Hf. subst f. split; congruence.
Qed.

Lemma list_post_stop : forall line rest kind,
  line_family line = None -> is_blank line = false ->
  list_loop_post (line :: rest) kind (kind, [], 0).
Proof.
  intros line rest kind Hfam Hbl.
  split; [|split; [|split; [|split]]].
  - intros _. reflexivity.
  - intros H. exfalso. apply H. reflexivity.
  - simpl. lia.
  - intros j Hj. lia.
  - simpl. intros _. split; [exact Hbl|]. rewrite Hfam. discriminate.
Qed.

Lemma list_post_blank : forall line rest kind k items n,
  is_blank line = true ->
  list_loop_post rest kind (k, items, n) ->
  list_loop_post (line :: rest) kind (k, items, S n).
Proof.
  intros line rest kind k items n Hbl (H1 & H2 & H3 & H4 & H5).
  split; [|split; [|split; [|split]]].
  - exact H1.
  - exact H2.
  - lia.
  - intros [|j] Hj; simpl; [left; exact Hbl | apply H4; lia].
  - simpl. intros Hn. apply H5. lia.
Qed.

Lemma list_loop_runs : forall ls kind,
  runs (list_loop ls kind) (list_loop_post ls kind).
Proof.
  induction ls as [|line rest IH]; intros kind; cbn [list_loop].
  - apply runs_ret. apply list_post_nil.
  - destruct (m_bullet_list line) as [[lv text]|] eqn:EB.
    + assert (Hfam : line_family line = Some KBullet)
        by (unfold line_family; rewrite EB; reflexivity).
      destruct kind as [[|]|]; cbv beta iota.
      2: apply runs_ret; eapply list_post_switch; [exact Hfam | discriminate].
      all: eapply runs_bind; [apply parse_inline_content_runs|]; intros c _;
           eapply runs_bind; [apply IH|]; intros [[k items] n] Hpost;
           apply runs_ret; eapply list_post_item; eauto.
    + destruct (m_numbered_list line) as [[lv text]|] eqn:EN.
      * assert (Hfam : line_family line = Some KOrdered)
          by (unfold line_family; rewrite EB, EN; reflexivity).
        destruct kind as [[|]|]; cbv beta iota.
        1: apply runs_ret; eapply list_post_switch; [exact Hfam | discriminate].
        all: eapply runs_bind; [apply parse_inline_content_runs|]; intros c _;
             eapply runs_bind; [apply IH|]; intros [[k items] n] Hpost;
             apply runs_ret; eapply list_post_item; eauto.
      * assert (Hfam : line_family line = None)
          by (unfold line_family; rewrite EB, EN; reflexivity).
        destruct (is_blank line) eqn:Bl.
        -- eapply runs_bind; [apply IH|]. intros [[k items] n] Hpost.
           apply runs_ret. apply list_post_blank; auto.
        -- apply runs_ret. apply list_post_stop; auto.
Qed.

(** The run a produced list node covers: every consumed line is blank or an
    item of family [k], and the line that ended the node (if any) is neither
    blank nor an item of family [k]. *)
Definition list_run_ok (k : list_kind) (lines : list string) (start n : nat) : Prop :=
  (forall j, j < n ->
     is_blank (nth (start + j) lines EmptyString) = true \/
     line_family (nth (start + j) lines EmptyString) = Some k) /\
  (start + n < length lines ->
     is_blank (nth (start + n) lines EmptyString) = false /\
     line_family (nth (start + n) lines EmptyString) <> Some k).

Lemma list_run_ok_of_post : forall lines start k0 items n,
  list_loop_post (skipn start lines) None (Some k0, items, n) ->
  list_run_ok k0 lines start n.
Proof.
  intros lines start k0 items n (H1 & H2 & H3 & H4 & H5). split.
  - intros j Hj. rewrite <- nth_skipn.
    destruct (H4 j Hj) as [B | [_ F]]; [left; exact B | right; exact F].
  - intros Hn. rewrite <- !nth_skipn.
    assert (Hl : n < length (skipn start lines)) by (rewrite length_skipn; lia).
    destruct (H5 Hl) as [B F]. split; [exact B|].
    intros E. destruct (F k0 E) as [_ Hne]. congruence.
Qed.

Lemma parse_list_runs : forall lines start,
  runs (parse_list lines start)
       (fun '(b, n) =>
          1 <= n /\
          match b with
          | Some (BulletList _) => list_run_ok KBullet lines start n
          | Some (OrderedList _) => list_run_ok KOrdered lines start n
          | _ => True
          end).
Proof.
  intros lines start. unfold parse_list.
  eapply runs_bind; [apply list_loop_runs|]. intros [[k items] n] Hpost.
  destruct items as [|it items].
  - eapply runs_weaken; [apply parse_paragraph_runs|].
    intros [b m] [Hm Hb]. split; [exact Hm|].
    destruct Hb as [-> | [c ->]]; exact I.
  - apply runs_ret.
    pose proof Hpost as (H1 & H2 & H3 & _).
    assert (Hk : k <> None) by (apply H2; discriminate).
    split; [simpl in H3; lia|].
    destruct k as [[|]|]; [| |contradiction]; simpl;
      eapply list_run_ok_of_post; exact Hpost.
Qed.

Lemma runs_parse_quote_block g : runs (parse_quote_block g) (fun _ => True).
Proof.
  unfold parse_quote_block. eapply runs_bind; [apply parse_inline_content_runs|].
  intros c _. apply runs_ret; exact I.
Qed.

Lemma runs_parse_panel_block g : runs (parse_panel_block g) (fun _ => True).
Proof.
  unfold parse_panel_block. cbv zeta.
  eapply runs_bind; [apply parse_inline_content_runs|].
  intros c _. apply runs_ret; exact I.
Qed.

Ltac case_if :=
  match goal with |- context [if ?b then _ else _] => destruct b end.

Lemma parse_block_element_runs : forall lines start,
  runs (parse_block_element lines start)
       (fun r => match r with Some (_, n) => 1 <= n | None => True end).
Proof.
  intros lines start. unfold parse_block_element. cbv zeta.
  destruct (m_heading (strip (nth start lines EmptyString))) as [[level text]|].
  - eapply runs_bind; [apply parse_inline_content_runs|]. intros c _.
    apply runs_ret. lia.
  - case_if; [apply runs_ret; lia|].
    case_if.
    { eapply runs_bind; [apply parse_table_runs|]. intros [b n] Hn. apply runs_ret. exact Hn. }
    case_if.
    { eapply runs_bind; [apply parse_list_runs|]. intros [b n] [Hn _]. apply runs_ret. exact Hn. }
    destruct (match_at_start m_code_block _) as [[g n]|].
    { apply runs_ret. unfold fenced_lines. lia. }
    destruct (match_at_start m_noformat _) as [[g n]|].
    { apply runs_ret. unfold fenced_lines. lia. }
    destruct (match_at_start m_quote _) as [[g n]|].
    { eapply runs_bind; [apply runs_parse_quote_block|]. intros b _.
      apply runs_ret. unfold fenced_lines. lia. }
    destruct (match_at_start m_panel _) as [[g n]|].
    { eapply runs_bind; [apply runs_parse_panel_block|]. intros b _.
      apply runs_ret. unfold fenced_lines. lia. }
    apply runs_ret. exact I.
Qed.

(** ** The document loop finishes within [len(lines) + 1] rounds *)

Lemma doc_loop_runs : forall f lines i acc,
  length lines - i < f -> runs (doc_loop f lines i acc) (fun _ => True).
Proof.
  induction f as [|f IH]; intros lines i acc Hf; [lia|].
  cbn [doc_loop]. destruct (i <? length lines) eqn:Hi.
  - apply Nat.ltb_lt in Hi.
    eapply runs_bind; [apply runs_set_line|]. intros u _.
    case_if; [apply IH; lia|].
    eapply runs_bind; [apply parse_block_element_runs|].
    intros [[el n]|] Hn.
    + apply IH. lia.
    + eapply runs_bind; [apply parse_paragraph_runs|]. intros [p n] [Hn' _].
      destruct p; apply IH; lia.
  - apply runs_ret. exact I.
Qed.

Lemma parse_document_runs : forall text,
  runs (parse_document text) (fun r => r <> []).
Proof.
  intros text. unfold parse_document. cbv zeta.
  eapply runs_bind; [apply doc_loop_runs; lia|]. intros content _.
  apply runs_ret. destruct content; discriminate.
Qed.

(** Blank lines are skipped without producing anything. *)
Lemma doc_loop_blank : forall f lines i acc,
  (forall j, i <= j -> is_blank (nth j lines EmptyString) = true) ->
  length lines - i < f ->
  forall c, exists c', doc_loop f lines i acc c = Some (acc, c').
Proof.
  induction f as [|f IH]; intros lines i acc Hb Hf c; [lia|].
  cbn [doc_loop]. destruct (i <? length lines) eqn:Hi.
  - apply Nat.ltb_lt in Hi. unfold bind at 1. simpl.
    rewrite (Hb i (le_n i)). apply IH; [intros j Hj; apply Hb; lia | lia].
  - exists c. reflexivity.
Qed.

Lemma convert_text_some : forall s,
  exists d e, convert_text s = Some (d, e) /\ content d <> [].
Proof.
  intros s. unfold convert_text.
  destruct (parse_document_runs (normalize_newlines s) initial_ctx) as (r & c' & E & H).
  rewrite E. exists {| version := 1; content := r |}, (errors c'). split; [reflexivity | exact H].
Qed.

Lemma forallb_nth_blank : forall lines,
  forallb is_blank lines = true ->
  forall j, is_blank (nth j lines EmptyString) = true.
Proof.
  induction lines as [|l ls IH]; intros H j.
  - destruct j; reflexivity.
  - simpl in H. apply andb_true_iff in H as [H1 H2].
    destruct j; [exact H1 | apply IH; exact H2].
Qed.

Lemma parse_document_blank : forall text c,
  forallb is_blank (split_nl text) = true ->
  exists c', parse_document text c = Some ([Some empty_paragraph], c').
Proof.
  intros text c H. unfold parse_document. cbv zeta.
  destruct (doc_loop_blank (S (length (split_nl text))) (split_nl text) 0 []
              (fun j _ => forallb_nth_blank _ H j) ltac:(lia) c) as [c' E].
  exists c'. unfold bind. rewrite E. reflexivity.
Qed.

Lemma parse_inline_no_match : forall text c,
  is_blank text = false ->
  earliest_match inline_patterns text None (String.length text) = None ->
  parse_inline_content text c = Some ([Text text []], c).
Proof.
  intros text c B E. unfold parse_inline_content. rewrite B.
  destruct text as [|ch r]; [discriminate B|].
  cbn [String.length]. unfold bind at 1. rewrite inline_loop_step, E.
  reflexivity.
Qed.

(** ** String facts for fenced blocks *)

Lemma starts_with_refl : forall p, starts_with p p = true.
Proof. intros p. rewrite <- (append_empty_r p) at 2. apply starts_with_app. Qed.

Lemma starts_with_prefix : forall p r q,
  String.length p <= String.length r -> starts_with p (r ++ q) = starts_with p r.
Proof.
  induction p as [|a p IH]; intros r q H; [reflexivity|].
  destruct r as [|b r]; simpl in *; [lia|]. rewrite IH; [reflexivity | lia].
Qed.

Lemma starts_with_straddle : forall r p c0 q,
  String.length r < String.length p ->
  starts_with p (r ++ String c0 q) = true ->
  all_chars (fun x => negb (Ascii.eqb x c0)) p = false.
Proof.
  induction r as [|a r IH]; intros p c0 q Hl H.
  - destruct p as [|b p]; simpl in *; [lia|].
    apply andb_true_iff in H as [H _]. apply Ascii.eqb_eq in H. subst b.
    rewrite Ascii.eqb_refl. reflexivity.
  - destruct p as [|b p]; simpl in *; [lia|].
    apply andb_true_iff in H as [_ H]. rewrite (IH p c0 q); [apply andb_false_r | lia | exact H].
Qed.

(** A closing marker whose first character does not occur again in it is
    found right after a text that does not contain it. *)
Lemma find_sub_close : forall u c0 p',
  all_chars (fun x => negb (Ascii.eqb x c0)) p' = true ->
  find_sub (String c0 p') u = None ->
  find_sub (String c0 p') (u ++ String c0 p') = Some (String.length u).
Proof.
  induction u as [|c r IH]; intros c0 p' Hp Hu.
  - simpl. rewrite Ascii.eqb_refl, starts_with_refl. reflexivity.
  - cbn [find_sub] in Hu. change (String c r ++ String c0 p') with (String c (r ++ String c0 p')).
    cbn [find_sub].
    destruct (starts_with (String c0 p') (String c r)) eqn:S1; [discriminate|].
    destruct (find_sub (String c0 p') r) eqn:F; [discriminate|].
    rewrite (IH c0 p' Hp F).
    replace (starts_with (String c0 p') (String c (r ++ String c0 p'))) with false; [reflexivity|].
    symmetry. destruct (starts_with (String c0 p') (String c (r ++ String c0 p'))) eqn:S2; [|reflexivity].
    exfalso. simpl in S1, S2. apply andb_true_iff in S2 as [E S2].
    rewrite E in S1. simpl in S1.
    destruct (Nat.le_gt_cases (String.length p') (String.length r)) as [Hle|Hlt].
    + rewrite starts_with_prefix in S2 by exact Hle. congruence.
    + rewrite (starts_with_straddle r p' c0 (p') Hlt S2) in Hp. discriminate.
Qed.

Lemma lazy_body_close : forall u c0 p',
  all_chars (fun x => negb (Ascii.eqb x c0)) p' = true ->
  find_sub (String c0 p') u = None ->
  lazy_body (String c0 p') (u ++ String c0 p') = Some (u, String.length u + S (String.length p')).
Proof.
  intros u c0 p' Hp Hu. unfold lazy_body. rewrite find_sub_close by assumption.
  rewrite stake_app. reflexivity.
Qed.

Lemma stake_length : forall s, stake (String.length s) s = s.
Proof. intros s. rewrite <- (append_empty_r s) at 2. apply stake_app. Qed.

Lemma split_nl_nonempty : forall s, split_nl s <> [].
Proof.
  destruct s as [|c r]; simpl; [discriminate|].
  destruct (Ascii.eqb c nl); [discriminate|]. destruct (split_nl r); discriminate.
Qed.

Lemma join_cons_char : forall sep c l ls,
  join sep (String c l :: ls) = String c (join sep (l :: ls)).
Proof. intros sep c l [|x xs]; reflexivity. Qed.

(** ['\n'.join(s.split('\n')) == s] *)
Lemma join_split_nl : forall s, join nl_s (split_nl s) = s.
Proof.
  induction s as [|c r IH]; [reflexivity|]. cbn [split_nl].
  destruct (Ascii.eqb c nl) eqn:E.
  - apply Ascii.eqb_eq in E. subst c.
    pose proof (split_nl_nonempty r). destruct (split_nl r) as [|l ls]; [congruence|].
    rewrite <- IH. reflexivity.
  - destruct (split_nl r) as [|l ls] eqn:Es; [exfalso; exact (split_nl_nonempty r Es) |].
    rewrite join_cons_char, IH. reflexivity.
Qed.

Lemma count_nl_split : forall s, count_nl s + 1 = length (split_nl s).
Proof.
  induction s as [|c r IH]; [reflexivity|]. simpl.
  destruct (Ascii.eqb c nl); simpl.
  - rewrite IH. reflexivity.
  - destruct (split_nl r); simpl in *; lia.
Qed.

Lemma split_nl_head : forall c r, Ascii.eqb c nl = false ->
  exists l ls, split_nl (String c r) = String c l :: ls.
Proof.
  intros c r E. simpl. rewrite E.
  destruct (split_nl r) as [|l ls]; eauto.
Qed.

Lemma replace_aux_no_head : forall a x b f s,
  all_chars (fun y => negb (Ascii.eqb y a)) s = true ->
  replace_aux (String a x) b f s = s.
Proof.
  induction f as [|f IH]; intros s H; [reflexivity|].
  destruct s as [|c r]; [reflexivity|]. simpl in H |- *.
  apply andb_true_iff in H as [H1 H2]. apply negb_true_iff in H1.
  rewrite Ascii.eqb_sym, H1. simpl. rewrite IH by exact H2. reflexivity.
Qed.

(** Without a carriage return the newline normalisation changes nothing. *)
Lemma normalize_newlines_id : forall s,
  all_chars (fun y => negb (Ascii.eqb y cr)) s = true -> normalize_newlines s = s.
Proof.
  intros s H. unfold normalize_newlines, replace.
  rewrite (replace_aux_no_head _ _ _ _ s H). unfold chr. rewrite (replace_aux_no_head _ _ _ _ s H). reflexivity.
Qed.

Lemma strip_brace : forall x, exists y, strip (String "{" x) = String "{" y.
Proof.
  intros x. unfold strip. simpl. destruct (rstrip x); eexists; reflexivity.
Qed.

Lemma brace_line : forall y,
  m_heading (String "{" y) = None /\ is_horizontal_rule (String "{" y) = false /\
  m_table_header (String "{" y) = None /\ m_table_row (String "{" y) = None /\
  m_bullet_list (String "{" y) = None /\ m_numbered_list (String "{" y) = None.
Proof.
  intros y. unfold is_horizontal_rule. simpl. rewrite andb_false_r.
  destruct y as [|a [|b z]]; repeat split; reflexivity.
Qed.

Lemma search_from_pos : forall m s p st r, search_from m s p = Some (st, r) -> p <= st.
Proof.
  intros m s. induction s as [|c s IH]; intros p st r H; simpl in H.
  - destruct (m EmptyString); [injection H as <- _; lia | discriminate].
  - destruct (m (String c s)); [injection H as <- _; lia|].
    apply IH in H. lia.
Qed.

Lemma match_at_start_none : forall m s, m s = None -> match_at_start m s = None.
Proof.
  intros m s H. unfold match_at_start, search.
  destruct s as [|c r]; simpl; rewrite H; [reflexivity|].
  destruct (search_from m r 1) as [[st g]|] eqn:E; [|reflexivity].
  apply search_from_pos in E. destruct st; [lia | reflexivity].
Qed.

Lemma match_at_start_some : forall m s r, m s = Some r -> match_at_start m s = Some r.
Proof.
  intros m s r H. unfold match_at_start, search.
  destruct s; simpl; rewrite H; reflexivity.
Qed.

(** A document whose first line starts a block element covering all its
    lines gives that one element, with the diagnostics left as they were. *)
Lemma doc_loop_single : forall lines el c,
  1 <= length lines ->
  is_blank (nth 0 lines EmptyString) = false ->
  (forall c, parse_block_element lines 0 c = Some (Some (el, length lines), c)) ->
  exists c', doc_loop (S (length lines)) lines 0 [] c = Some ([el], c') /\ errors c' = errors c.
Proof.
  intros lines el c Hl Hb Hp.
  cbn [doc_loop]. replace (0 <? length lines) with true by (symmetry; apply Nat.ltb_lt; lia).
  unfold bind at 1. cbn [set_line]. cbv beta iota. rewrite Hb.
  unfold bind at 1. rewrite Hp. cbv beta iota.
  destruct (length lines) as [|k] eqn:E; [lia|].
  cbn [doc_loop]. replace (0 + S k <? length lines) with false by (symmetry; apply Nat.ltb_ge; lia).
  eexists. split; reflexivity.
Qed.

Lemma convert_single_block : forall s el,
  all_chars (fun y => negb (Ascii.eqb y cr)) s = true ->
  is_blank (nth 0 (split_nl s) EmptyString) = false ->
  (forall c, parse_block_element (split_nl s) 0 c = Some (Some (el, length (split_nl s)), c)) ->
  convert_text s = Some ({| version := 1; content := [el] |}, []).
Proof.
  intros s el Hcr Hb Hp. unfold convert_text. rewrite normalize_newlines_id by exact Hcr.
  unfold parse_document. cbv zeta.
  assert (Hl : 1 <= length (split_nl s)).
  { destruct (split_nl s) eqn:E; [exfalso; exact (split_nl_nonempty s E) | simpl; lia]. }
  destruct (doc_loop_single _ el initial_ctx Hl Hb Hp) as (c' & E & Ee).
  unfold bind. rewrite E. cbn. rewrite Ee. reflexivity.
Qed.

(** The stripped first line of a text starting with ['{'] starts with ['{'],
    so no line-level block (heading, rule, table, list) is recognised on it. *)
Lemma parse_block_element_brace : forall s c,
  (exists x, s = String "{" x) ->
  parse_block_element (split_nl s) 0 c =
  (match match_at_start m_code_block s with
   | Some (g, n) => ret (Some (Some (parse_code_block_from_match g), fenced_lines s n))
   | None =>
   match match_at_start m_noformat s with
   | Some (g, n) => ret (Some (Some (parse_noformat_block g), fenced_lines s n))
   | None =>
   match match_at_start m_quote s with
   | Some (g, n) => b <- parse_quote_block g ;; ret (Some (Some b, fenced_lines s n))
   | None =>
   match match_at_start m_panel s with
   | Some (g, n) => b <- parse_panel_block g ;; ret (Some (Some b, fenced_lines s n))
   | None => ret None
   end end end end) c.
Proof.
  intros s c [x ->].
  destruct (split_nl_head "{" x eq_refl) as (l & ls & E).
  unfold parse_block_element. cbv zeta. rewrite E. cbn [nth skipn].
  destruct (strip_brace l) as [y Hy]. rewrite Hy.
  destruct (brace_line y) as (H1 & H2 & H3 & H4 & H5 & H6).
  rewrite H1, H2, H3, H4, H5, H6. cbv iota. rewrite <- E, join_split_nl. reflexivity.
Qed.

Lemma m_code_block_plain : forall b,
  find_sub "{code}" b = None ->
  m_code_block ("{code}" ++ b ++ "{code}") =
  Some ([None; Some b], String.length ("{code}" ++ b ++ "{code}")).
Proof.
  intros b Hb. unfold m_code_block. cbn -[lazy_body].
  rewrite (lazy_body_close b "{" "code}") by (reflexivity || exact Hb).
  rewrite length_append_s. reflexivity.
Qed.

Lemma m_noformat_plain : forall b,
  find_sub "{noformat}" b = None ->
  m_noformat ("{noformat}" ++ b ++ "{noformat}") =
  Some ([Some b], String.length ("{noformat}" ++ b ++ "{noformat}")).
Proof.
  intros b Hb. unfold m_noformat, m_fenced.
  rewrite starts_with_app, sdrop_app.
  rewrite (lazy_body_close b "{" "noformat}") by (reflexivity || exact Hb).
  rewrite !length_append_s. reflexivity.
Qed.

Lemma m_code_block_noformat : forall x, m_code_block ("{noformat}" ++ x) = None.
Proof. intros x. reflexivity. Qed.

Lemma fenced_lines_all : forall s, fenced_lines s (String.length s) = length (split_nl s).
Proof. intros s. unfold fenced_lines. rewrite stake_length. apply count_nl_split. Qed.

Lemma brace_first_line_not_blank : forall x,
  is_blank (nth 0 (split_nl (String "{" x)) EmptyString) = false.
Proof.
  intros x. destruct (split_nl_head "{" x eq_refl) as (l & ls & ->). reflexivity.
Qed.

Lemma no_cr_fenced : forall m b,
  all_chars (fun y => negb (Ascii.eqb y cr)) m = true ->
  all_chars (fun y => negb (Ascii.eqb y cr)) b = true ->
  all_chars (fun y => negb (Ascii.eqb y cr)) (m ++ b ++ m) = true.
Proof. intros m b H1 H2. rewrite !all_chars_app, H1, H2. reflexivity. Qed.

(** A [{code}] block spanning the whole input: one code block whose single
    unmarked text leaf is the stripped body. *)
Lemma convert_code_block : forall b,
  all_chars (fun y => negb (Ascii.eqb y cr)) b = true ->
  find_sub "{code}" b = None ->
  convert_text ("{code}" ++ b ++ "{code}") =
  Some ({| version := 1; content := [Some (CodeBlock (Some None) [Text (strip b) []])] |}, []).
Proof.
  intros b Hcr Hf. apply convert_single_block.
  - apply no_cr_fenced; [reflexivity | exact Hcr].
  - apply brace_first_line_not_blank.
  - intros c. rewrite parse_block_element_brace by (eexists; reflexivity).
    rewrite (match_at_start_some _ _ _ (m_code_block_plain b Hf)).
    rewrite fenced_lines_all. reflexivity.
Qed.

Lemma m_code_block_lang : forall lang b,
  lang <> EmptyString -> all_chars is_alnum lang = true ->
  find_sub "{code}" b = None ->
  m_code_block ("{code:" ++ lang ++ "}" ++ b ++ "{code}") =
  Some ([Some lang; Some b], String.length ("{code:" ++ lang ++ "}" ++ b ++ "{code}")).
Proof.
  intros lang b Hne Hal Hb. unfold m_code_block.
  change ("{code:" ++ lang ++ "}" ++ b ++ "{code}")
    with ("{code" ++ String ":" (lang ++ String "}" (b ++ "{code}"))).
  rewrite starts_with_app. cbn [sdrop append].
  change (Ascii.eqb ":" ":") with true. cbv iota zeta.
  rewrite (span_app is_alnum lang "}" (b ++ "{code}") Hal eq_refl).
  destruct lang as [|c r]; [contradiction Hne; reflexivity|].
  change (starts_with "}" (String "}" (b ++ "{code}"))) with true. cbv iota.
  cbn [sdrop].
  rewrite (lazy_body_close b "{" "code}") by (reflexivity || exact Hb).
  cbn [String.length]. rewrite !length_append_s. cbn [String.length]. rewrite ?length_append_s.
  cbn [String.length].
  f_equal. f_equal. lia.
Qed.

Lemma alnum_no_cr : forall s,
  all_chars is_alnum s = true -> all_chars (fun y => negb (Ascii.eqb y cr)) s = true.
Proof.
  induction s as [|x r IH]; intros H; [reflexivity|]. cbn [all_chars] in H |- *.
  apply andb_true_iff in H as [Hx Hr]. rewrite (IH Hr), andb_true_r.
  destruct (Ascii.eqb x cr) eqn:E; [|reflexivity].
  apply Ascii.eqb_eq in E. subst x. discriminate Hx.
Qed.

(** A [{code:lang}] block spanning the whole input: one code block with
    that language whose single unmarked text leaf is the stripped body. *)
Lemma convert_code_block_lang : forall lang b,
  lang <> EmptyString -> all_chars is_alnum lang = true ->
  all_chars (fun y => negb (Ascii.eqb y cr)) b = true ->
  find_sub "{code}" b = None ->
  convert_text ("{code:" ++ lang ++ "}" ++ b ++ "{code}") =
  Some ({| version := 1; content := [Some (CodeBlock (Some (Some lang)) [Text (strip b) []])] |}, []).
Proof.
  intros lang b Hne Hal Hcr Hf. apply convert_single_block.
  - change ("{code:" ++ lang ++ "}" ++ b ++ "{code}")
      with ("{code:" ++ (lang ++ ("}" ++ (b ++ "{code}")))).
    rewrite !all_chars_app, (alnum_no_cr _ Hal), Hcr. reflexivity.
  - apply brace_first_line_not_blank.
  - intros c. rewrite parse_block_element_brace by (eexists; reflexivity).
    rewrite (match_at_start_some _ _ _ (m_code_block_lang lang b Hne Hal Hf)).
    rewrite fenced_lines_all. destruct lang as [|ch r]; [contradiction Hne; reflexivity|].
    reflexivity.
Qed.

(** A [{noformat}] block spanning the whole input: one code block whose
    single unmarked text leaf is the body unchanged. *)
Lemma convert_noformat_block : forall b,
  all_chars (fun y => negb (Ascii.eqb y cr)) b = true ->
  find_sub "{noformat}" b = None ->
  convert_text ("{noformat}" ++ b ++ "{noformat}") =
  Some ({| version := 1; content := [Some (CodeBlock None [Text b []])] |}, []).
Proof.
  intros b Hcr Hf. apply convert_single_block.
  - apply no_cr_fenced; [reflexivity | exact Hcr].
  - apply brace_first_line_not_blank.
  - intros c. rewrite parse_block_element_brace by (eexists; reflexivity).
    rewrite (match_at_start_none _ _ (m_code_block_noformat _)).
    rewrite (match_at_start_some _ _ _ (m_noformat_plain b Hf)).
    rewrite fenced_lines_all. reflexivity.
Qed.

(** ** Color spans *)

Lemma all_chars_impl : forall (p q : ascii -> bool) s,
  (forall x, p x = true -> q x = true) -> all_chars p s = true -> all_chars q s = true.
Proof.
  intros p q s Hpq. induction s as [|c r IH]; simpl; [reflexivity|].
  intros H. apply andb_true_iff in H as [H1 H2]. rewrite (Hpq c H1), (IH H2). reflexivity.
Qed.

(** A color token is made of ['#'], hex digits and letters only. *)
Lemma color_token_chars : forall tok (q : ascii -> bool),
  q "#"%char = true ->
  (forall x, is_hex x = true -> q x = true) ->
  (forall x, is_alpha x = true -> q x = true) ->
  color_token tok = true -> all_chars q tok = true.
Proof.
  intros tok q Hh Hx Ha H. unfold color_token in H.
  destruct tok as [|c r]; [reflexivity|].
  apply orb_true_iff in H as [H | H].
  - apply andb_true_iff in H as [H _]. apply andb_true_iff in H as [H _].
    destruct (Ascii.eqb c "#") eqn:E.
    + apply Ascii.eqb_eq in E. subst c. simpl. rewrite Hh.
      exact (all_chars_impl _ _ _ Hx H).
    + exact (all_chars_impl _ _ _ Hx H).
  - apply andb_true_iff in H as [_ H]. exact (all_chars_impl _ _ _ Ha H).
Qed.

Lemma hex_not_brace : forall x, is_hex x = true -> negb (Ascii.eqb x "}") = true.
Proof. intros [[] [] [] [] [] [] [] []] H; try reflexivity; discriminate H. Qed.

Lemma alpha_not_brace : forall x, is_alpha x = true -> negb (Ascii.eqb x "}") = true.
Proof. intros [[] [] [] [] [] [] [] []] H; try reflexivity; discriminate H. Qed.

Lemma hex_not_nl : forall x, is_hex x = true -> negb (Ascii.eqb x nl) = true.
Proof. intros [[] [] [] [] [] [] [] []] H; try reflexivity; discriminate H. Qed.

Lemma alpha_not_nl : forall x, is_alpha x = true -> negb (Ascii.eqb x nl) = true.
Proof. intros [[] [] [] [] [] [] [] []] H; try reflexivity; discriminate H. Qed.

Lemma m_color_span : forall tok body,
  color_token tok = true ->
  find_sub "{color}" body = None ->
  m_color ("{color:" ++ tok ++ "}" ++ body ++ "{color}") =
  Some ([Some tok; Some body],
        String.length ("{color:" ++ tok ++ "}" ++ body ++ "{color}")).
Proof.
  intros tok body Ht Hb. unfold m_color.
  rewrite starts_with_app.
  change (sdrop 7 ("{color:" ++ tok ++ "}" ++ body ++ "{color}"))
    with (tok ++ String "}" (body ++ "{color}")).
  rewrite span_app.
  2: { apply color_token_chars; [reflexivity | exact hex_not_brace | exact alpha_not_brace | exact Ht]. }
  2: reflexivity.
  change (starts_with "}" (String "}" (body ++ "{color}"))) with true.
  rewrite Ht. cbv iota beta.
  change (sdrop 1 (String "}" (body ++ "{color}"))) with (body ++ "{color}").
  rewrite (lazy_body_close body "{" "color}") by (reflexivity || exact Hb).
  rewrite !length_append_s. simpl. f_equal. f_equal. lia.
Qed.

Lemma search_at_start : forall m s r, m s = Some r -> search m s = Some (0, r).
Proof. intros m s r H. unfold search. destruct s; simpl; rewrite H; reflexivity. Qed.

Lemma earliest_match_zero : forall ps s b,
  earliest_match ps s (Some b) 0 = Some b.
Proof.
  induction ps as [|p ps IH]; intros s b; [reflexivity|]. simpl.
  destruct (search (pattern_of p) s) as [[st r]|]; [|apply IH].
  destruct st; apply IH.
Qed.

Lemma earliest_match_cons : forall p ps s best bp,
  earliest_match (p :: ps) s best bp =
  match search (pattern_of p) s with
  | Some (st, r) =>
      if st <? bp then earliest_match ps s (Some (p, st, r)) st
      else earliest_match ps s best bp
  | None => earliest_match ps s best bp
  end.
Proof. reflexivity. Qed.

Lemma substring_all : forall s, substring 0 (String.length s) s = s.
Proof. induction s as [|c r IH]; [reflexivity|]. simpl. rewrite IH. reflexivity. Qed.

Lemma sdrop_all : forall s, sdrop (String.length s) s = EmptyString.
Proof. induction s as [|c r IH]; [reflexivity | exact IH]. Qed.

(** A color span that is the whole inline text is handled by the color
    branch of [_process_inline_match] alone. *)
Lemma parse_inline_color_whole : forall x g c,
  m_color (String "{" x) = Some (g, String.length (String "{" x)) ->
  parse_inline_content (String "{" x) c =
  match process_inline_match P_color g (String "{" x) c with
  | Some (el, c') => Some ([el], c')
  | None => None
  end.
Proof.
  intros x g c H. unfold parse_inline_content.
  replace (is_blank (String "{" x)) with false by reflexivity.
  unfold bind at 1. cbn [String.length] in *. rewrite inline_loop_step.
  replace (earliest_match inline_patterns (String "{" x) None (String.length (String "{" x)))
    with (Some (P_color, 0, (g, S (String.length x)))).
  2: { unfold inline_patterns. rewrite earliest_match_cons.
       change (pattern_of P_color) with m_color. rewrite (search_at_start _ _ _ H).
       change (0 <? String.length (String "{" x)) with true. cbv iota.
       symmetry. apply earliest_match_zero. }
  cbv zeta. change (0 <? 0) with false. cbv iota.
  change (S (String.length x)) with (String.length (String "{" x)).
  rewrite substring_all. unfold bind at 1.
  destruct (process_inline_match P_color g (String "{" x) c) as [[el c']|]; [|reflexivity].
  rewrite Nat.add_0_l, sdrop_all. reflexivity.
Qed.

(** The color span [{color:tok}body{color}] as the whole inline text: a
    valid color gives one text node with the color mark; an invalid one
    gives the unmarked body and one [INVALID_COLOR] diagnostic. *)
Lemma color_span_alone : forall tok body c,
  color_token tok = true ->
  find_sub "{color}" body = None ->
  parse_inline_content ("{color:" ++ tok ++ "}" ++ body ++ "{color}") c =
  if is_valid_color tok then Some ([Text body [TextColor tok]], c)
  else Some ([Text body []],
             {| errors := (errors c ++
                  [{| error_type := INVALID_COLOR; error_line := line_number c; column := 0;
                      original_text := "{color:" ++ tok ++ "}" ++ body ++ "{color}";
                      parsed_as := "Plain text: " ++ body;
                      message := "Invalid color value: " ++ tok |}])%list;
                line_number := line_number c |}).
Proof.
  intros tok body c Ht Hb.
  pose proof (m_color_span tok body Ht Hb) as H.
  change ("{color:" ++ tok ++ "}" ++ body ++ "{color}")
    with (String "{" ("color:" ++ tok ++ "}" ++ body ++ "{color}")) in *.
  rewrite (parse_inline_color_whole _ _ c H).
  unfold process_inline_match. cbn [grp nth Nat.sub].
  destruct (is_valid_color tok); reflexivity.
Qed.

Lemma all_chars_sdrop : forall q k s, all_chars q s = true -> all_chars q (sdrop k s) = true.
Proof.
  intros q k. induction k as [|k IH]; intros [|c r] H; simpl in *; auto.
  apply andb_true_iff in H as [_ H]. apply IH, H.
Qed.

Lemma ends_with_nl_false : forall s,
  all_chars (fun x => negb (Ascii.eqb x nl)) s = true -> ends_with nl_s s = false.
Proof.
  intros s H. unfold ends_with.
  destruct (String.length nl_s <=? String.length s); [|reflexivity].
  destruct (String.eqb _ nl_s) eqn:E; [|reflexivity].
  apply String.eqb_eq in E.
  pose proof (all_chars_sdrop _ (String.length s - String.length nl_s) s H) as H'.
  rewrite E in H'. discriminate H'.
Qed.

Lemma existsb_eqb_In : forall x l, existsb (String.eqb x) l = true <-> In x l.
Proof.
  intros x l. rewrite existsb_exists. split.
  - intros [y [Hy E]]. apply String.eqb_eq in E. subst y. exact Hy.
  - intros Hx. exists x. split; [exact Hx | apply String.eqb_refl].
Qed.

(** [_is_valid_color] on a token the color pattern accepts: ['#'] followed
    by exactly 3 or 6 hex digits, or a named color in any letter case. *)
Lemma is_valid_color_token : forall tok,
  color_token tok = true ->
  (is_valid_color tok = true <->
   (exists h, tok = String "#" h /\ all_chars is_hex h = true /\
              (String.length h = 3 \/ String.length h = 6)) \/
   In (lower tok) named_colors).
Proof.
  intros tok Ht.
  assert (Hn : ends_with nl_s tok = false).
  { apply ends_with_nl_false, color_token_chars;
      [reflexivity | exact hex_not_nl | exact alpha_not_nl | exact Ht]. }
  unfold is_valid_color. destruct tok as [|c r].
  - rewrite <- existsb_eqb_In. split; [discriminate|].
    intros [[h [E _]] | E]; [discriminate E | discriminate E].
  - destruct (Ascii.eqb "#" c) eqn:Ec.
    + apply Ascii.eqb_eq in Ec. subst c.
      unfold hash_hex. rewrite Hn.
      change (starts_with "#" (String "#" r)) with true.
      change (sdrop 1 (String "#" r)) with r. cbn [String.length andb].
      assert (Hnot : ~ In (lower (String "#" r)) named_colors).
      { rewrite <- existsb_eqb_In. cbn [lower]. change (to_lower_char "#") with "#"%char.
        discriminate. }
      destruct (all_chars is_hex r) eqn:Hx; rewrite ?andb_true_r, ?andb_false_r.
      * rewrite orb_true_iff, !Nat.eqb_eq. split.
        -- intros H. left. exists r. split; [reflexivity|]. split; [exact Hx | lia].
        -- intros [[h [E [_ H]]] | H]; [injection E as <-; lia | contradiction].
      * split; [discriminate|].
        intros [[h [E [H _]]] | H]; [injection E as <-; congruence | contradiction].
    + cbn [starts_with]. rewrite Ec. cbn [andb]. rewrite existsb_eqb_In. split.
      * intros H. right. exact H.
      * intros [[h [E _]] | H]; [injection E as -> _; rewrite Ascii.eqb_refl in Ec; discriminate Ec | exact H].
Qed.

(** ** Table lines *)

Lemma ends_with_app : forall p u, ends_with p (u ++ p) = true.
Proof.
  intros p u. unfold ends_with. rewrite length_append_s.
  replace (String.length u + String.length p - String.length p) with (String.length u) by lia.
  rewrite sdrop_app, String.eqb_refl. apply andb_true_iff. split; [apply Nat.leb_le; lia | reflexivity].
Qed.

Lemma substring0_app : forall u v, substring 0 (String.length u) (u ++ v) = u.
Proof. induction u as [|c u IH]; intros v; [destruct v; reflexivity | simpl; rewrite IH; reflexivity]. Qed.

Lemma substring_0_0 : forall s, substring 0 0 s = EmptyString.
Proof. intros [|c s]; reflexivity. Qed.

Lemma substring_at_app : forall u z v, substring (String.length u) 1 (u ++ String z v) = String z EmptyString.
Proof.
  induction u as [|c u IH]; intros z v; [simpl; rewrite substring_0_0; reflexivity | exact (IH z v)].
Qed.

(** A line framed by double pipes is a header row; its cells are those of
    the inner text split on ["||"], trimmed, with every empty cell
    dropped. *)
Lemma classify_header_line : forall g,
  g <> EmptyString ->
  classify_table_line ("||" ++ g ++ "||") =
  Some (HeaderCells, filter (fun c => negb (String.eqb c "")) (map strip (split_on "||" g))).
Proof.
  intros g Hg. unfold classify_table_line, m_table_header.
  rewrite starts_with_app.
  replace ("||" ++ g ++ "||") with (("||" ++ g) ++ "||") by apply append_assoc_s.
  rewrite ends_with_app, !length_append_s.
  replace (5 <=? String.length "||" + String.length g + String.length "||") with true.
  2: { symmetry. apply Nat.leb_le. destruct g; [congruence | simpl; lia]. }
  cbn [andb]. rewrite append_assoc_s.
  replace (String.length "||" + String.length g + String.length "||" - 4) with (String.length g)
    by (simpl; lia).
  change (substring 2 (String.length g) ("||" ++ g ++ "||"))
    with (substring 0 (String.length g) (g ++ "||")).
  rewrite substring0_app. reflexivity.
Qed.

(** A line framed by single pipes whose inner text neither starts nor ends
    with a pipe and has at least three characters is a data row; its cells
    are those of the inner text split on ["|"], trimmed, with every empty
    cell dropped. *)
Lemma classify_data_line : forall a m z,
  a <> "|"%char -> z <> "|"%char -> m <> EmptyString ->
  classify_table_line ("|" ++ String a (m ++ String z EmptyString) ++ "|") =
  Some (DataCells, filter (fun c => negb (String.eqb c ""))
                          (map strip (split_on "|" (String a (m ++ String z EmptyString))))).
Proof.
  intros a m z Ha Hz Hm.
  set (w := String a (m ++ String z EmptyString)).
  assert (Haf : Ascii.eqb "|" a = false) by (apply Ascii.eqb_neq; congruence).
  unfold classify_table_line, m_table_header.
  replace (starts_with "||" ("|" ++ w ++ "|")) with false
    by (subst w; cbn [starts_with append]; rewrite Haf; reflexivity).
  cbn [andb]. unfold m_table_row.
  assert (Hlen : String.length ("|" ++ w ++ "|") = String.length w + 2).
  { rewrite !length_append_s. simpl. lia. }
  rewrite Hlen, starts_with_app.
  replace ("|" ++ w ++ "|") with (("|" ++ w) ++ "|") by apply append_assoc_s.
  rewrite ends_with_app.
  replace (5 <=? String.length w + 2) with true.
  2: { symmetry. apply Nat.leb_le. subst w. simpl. rewrite length_append_s.
       destruct m; [congruence | simpl; lia]. }
  replace (substring 1 1 (("|" ++ w) ++ "|")) with (String a EmptyString)
    by (subst w; simpl; rewrite substring_0_0; reflexivity).
  replace (String.eqb (String a EmptyString) "|") with false.
  2: { assert (Ha' : Ascii.eqb a "|" = false) by (apply Ascii.eqb_neq; exact Ha).
       symmetry. apply andb_false_iff. left. exact Ha'. }
  replace (String.length w + 2 - 2) with (String.length ("|" ++ String a m)).
  2: { subst w. simpl. rewrite length_append_s. simpl. lia. }
  replace (("|" ++ w) ++ "|") with (("|" ++ String a m) ++ String z "|").
  2: { subst w. simpl. rewrite append_assoc_s. reflexivity. }
  rewrite substring_at_app.
  replace (String.eqb (String z EmptyString) "|") with false.
  2: { symmetry. simpl. apply andb_false_iff. left. apply Ascii.eqb_neq. exact Hz. }
  cbn [andb negb].
  replace (String.length ("|" ++ String a m)) with (String.length w).
  2: { subst w. simpl. rewrite length_append_s. simpl. lia. }
  replace (("|" ++ String a m) ++ String z "|") with ("|" ++ (w ++ "|")).
  2: { subst w. simpl. rewrite append_assoc_s. reflexivity. }
  change (substring 1 (String.length w) ("|" ++ w ++ "|"))
    with (substring 0 (String.length w) (w ++ "|")).
  rewrite substring0_app. reflexivity.
Qed.

(** ** Diagnostics the converter records *)

Section Diagnostics.

(** [L] bounds the line numbers: the number of lines of the document. *)
Variable L : nat.

Definition diag_ok (c : ctx) : Prop :=
  1 <= line_number c <= L /\
  Forall (fun e => error_type e = INVALID_COLOR /\ 1 <= error_line e <= L) (errors c).

(** [m] keeps [diag_ok] whenever it returns. *)
Definition pres {A} (m : M A) : Prop :=
  forall c a c', diag_ok c -> m c = Some (a, c') -> diag_ok c'.

Lemma pres_ret {A} (a : A) : pres (ret a).
Proof. intros c x c' H E. injection E as _ <-. exact H. Qed.

Lemma pres_out_of_fuel {A} : pres (@out_of_fuel A).
Proof. intros c x c' _ E. discriminate E. Qed.

Lemma pres_bind {A B} (m : M A) (k : A -> M B) :
  pres m -> (forall a, pres (k a)) -> pres (bind m k).
Proof.
  intros Hm Hk c b c' H E. unfold bind in E.
  destruct (m c) as [[a c1]|] eqn:Em; [|discriminate E].
  exact (Hk a c1 b c' (Hm c a c1 H Em) E).
Qed.

Lemma pres_get_line_bind {B} (k : nat -> M B) :
  (forall ln, 1 <= ln <= L -> pres (k ln)) -> pres (bind get_line k).
Proof.
  intros Hk c b c' H E. unfold bind, get_line in E.
  exact (Hk (line_number c) (proj1 H) c b c' H E).
Qed.

Lemma pres_set_line n : 1 <= n <= L -> pres (set_line n).
Proof.
  intros Hn c x c' [_ He] E. injection E as _ <-. split; [exact Hn | exact He].
Qed.

Lemma pres_add_error_invalid ln col o p msg :
  1 <= ln <= L -> pres (add_error INVALID_COLOR ln col o p msg).
Proof.
  intros Hln c x c' [Hl He] E. injection E as _ <-. split; [exact Hl|].
  simpl. apply Forall_app. split; [exact He | constructor; [split; [reflexivity | exact Hln] | constructor]].
Qed.

Lemma pres_mapM {A B} (f : A -> M B) (l : list A) :
  (forall x, pres (f x)) -> pres (mapM f l).
Proof.
  intros Hf. induction l as [|x l IH]; simpl.
  - apply pres_ret.
  - apply pres_bind; [apply Hf | intros b].
    apply pres_bind; [exact IH | intros bs]. apply pres_ret.
Qed.

Ltac pres_step :=
  match goal with
  | |- pres (ret _) => apply pres_ret
  | |- pres out_of_fuel => apply pres_out_of_fuel
  | |- pres (bind get_line _) => apply pres_get_line_bind; intros ? ?
  | |- pres (bind _ _) => apply pres_bind; [| intros ?]
  | |- pres (match ?x with _ => _ end) => destruct x
  | |- pres (if ?b then _ else _) => destruct b
  | |- pres (let _ := _ in _) => cbv zeta
  end.

Lemma pres_process_inline_match name g w : pres (process_inline_match name g w).
Proof.
  destruct name; simpl; repeat pres_step.
  apply pres_add_error_invalid. assumption.
Qed.

Lemma pres_inline_loop : forall f rem acc, pres (inline_loop f rem acc).
Proof.
  induction f as [|f IH]; intros rem acc; cbn [inline_loop]; [apply pres_out_of_fuel|].
  repeat pres_step; try apply pres_process_inline_match; apply IH.
Qed.

Lemma pres_parse_inline_content text : pres (parse_inline_content text).
Proof. unfold parse_inline_content. repeat pres_step. apply pres_inline_loop. Qed.

Lemma pres_make_cell k t : pres (make_cell k t).
Proof. unfold make_cell. repeat pres_step. apply pres_parse_inline_content. Qed.

Lemma pres_table_loop : forall ls, pres (table_loop ls).
Proof.
  induction ls as [|l ls IH]; cbn [table_loop]; repeat pres_step;
    try apply pres_mapM; try apply pres_make_cell; apply IH.
Qed.

Lemma pres_parse_paragraph lines start : pres (parse_paragraph lines start).
Proof. unfold parse_paragraph. repeat pres_step. apply pres_parse_inline_content. Qed.

Lemma pres_parse_table lines start : pres (parse_table lines start).
Proof.
  unfold parse_table. repeat pres_step; try apply pres_table_loop; apply pres_parse_paragraph.
Qed.

Lemma pres_list_loop : forall ls kind, pres (list_loop ls kind).
Proof.
  induction ls as [|l ls IH]; intros kind; cbn [list_loop]; repeat pres_step;
    try apply pres_parse_inline_content; apply IH.
Qed.

Lemma pres_parse_list lines start : pres (parse_list lines start).
Proof.
  unfold parse_list. repeat pres_step; try apply pres_list_loop; apply pres_parse_paragraph.
Qed.

Lemma pres_parse_block_element lines start : pres (parse_block_element lines start).
Proof.
  unfold parse_block_element. repeat pres_step;
    try apply pres_parse_inline_content; try apply pres_parse_table; try apply pres_parse_list;
    unfold parse_quote_block, parse_panel_block; repeat pres_step; apply pres_parse_inline_content.
Qed.

Lemma pres_doc_loop : forall f lines i acc,
  length lines <= L -> pres (doc_loop f lines i acc).
Proof.
  induction f as [|f IH]; intros lines i acc HL; cbn [doc_loop]; [apply pres_out_of_fuel|].
  destruct (i <? length lines) eqn:Hi; [|apply pres_ret].
  apply Nat.ltb_lt in Hi.
  apply pres_bind; [apply pres_set_line; lia | intros u].
  repeat pres_step; try apply IH; try exact HL;
    try apply pres_parse_block_element; apply pres_parse_paragraph.
Qed.

End Diagnostics.

(** ** Newline normalisation *)

Lemma replace_aux_removes : forall a b f s,
  all_chars (fun y => negb (Ascii.eqb y a)) b = true -> String.length s < f ->
  all_chars (fun y => negb (Ascii.eqb y a)) (replace_aux (String a EmptyString) b f s) = true.
Proof.
  induction f as [|f IH]; intros s Hb Hl; [lia|].
  destruct s as [|c r]; [reflexivity|]. cbn [replace_aux].
  destruct (starts_with (String a EmptyString) (String c r)) eqn:Hs.
  - cbn [String.length sdrop]. rewrite all_chars_app, Hb, IH; [reflexivity | exact Hb |].
    simpl in Hl. lia.
  - cbn [starts_with] in Hs. rewrite andb_true_r in Hs.
    cbn [all_chars]. rewrite Ascii.eqb_sym, Hs, IH; [reflexivity | exact Hb |]. simpl in Hl. lia.
Qed.

Lemma normalize_newlines_no_cr : forall s,
  all_chars (fun y => negb (Ascii.eqb y cr)) (normalize_newlines s) = true.
Proof.
  intros s. unfold normalize_newlines, replace, chr.
  apply replace_aux_removes; [reflexivity | lia].
Qed.

(** ** [get_error_summary] *)

Lemma assoc_add_to_group : forall k k' x g,
  assoc k (add_to_group k' x g) =
  if String.eqb k k' then Some (match assoc k g with None => [x] | Some xs => (xs ++ [x])%list end)
  else assoc k g.
Proof.
  induction g as [|[k1 xs] g IH]; cbn [add_to_group assoc].
  - destruct (String.eqb k k'); reflexivity.
  - destruct (String.eqb k' k1) eqn:E1.
    + apply String.eqb_eq in E1. subst k1. cbn [assoc].
      destruct (String.eqb k k'); reflexivity.
    + cbn [assoc]. rewrite IH.
      destruct (String.eqb k k1) eqn:E2; [|reflexivity].
      apply String.eqb_eq in E2. subst k1.
      destruct (String.eqb k k') eqn:E3; [|reflexivity].
      apply String.eqb_eq in E3. subst k'. rewrite String.eqb_refl in E1. discriminate E1.
Qed.

Lemma keys_add_to_group : forall k x g,
  map fst (add_to_group k x g) =
  if existsb (String.eqb k) (map fst g) then map fst g else (map fst g ++ [k])%list.
Proof.
  induction g as [|[k1 xs] g IH]; cbn [add_to_group map fst existsb]; [reflexivity|].
  destruct (String.eqb k k1); cbn [map fst]; [reflexivity|].
  rewrite IH. destruct (existsb (String.eqb k) (map fst g)); reflexivity.
Qed.

Lemma nodup_add_to_group : forall k x g,
  NoDup (map fst g) -> NoDup (map fst (add_to_group k x g)).
Proof.
  intros k x g H. rewrite keys_add_to_group.
  destruct (existsb (String.eqb k) (map fst g)) eqn:E; [exact H|].
  apply NoDup_app; [exact H | constructor; [intros [] | constructor] |].
  intros y Hy [Hk | []]. subst y. assert (Hin : existsb (String.eqb k) (map fst g) = true).
  { apply existsb_exists. exists k. split; [exact Hy | apply String.eqb_refl]. }
  rewrite Hin in E. discriminate E.
Qed.

Lemma sum_add_to_group : forall k x g,
  list_sum (map (fun p => length (snd p)) (add_to_group k x g)) =
  S (list_sum (map (fun p => length (snd p)) g)).
Proof.
  induction g as [|[k1 xs] g IH]; cbn [add_to_group]; [reflexivity|].
  destruct (String.eqb k k1); cbn [map snd fst]; unfold list_sum; cbn [fold_right];
    fold (list_sum (map (fun p : string * list summary_entry => length (snd p)) g)).
  - rewrite length_app. simpl. lia.
  - fold (list_sum (map (fun p : string * list summary_entry => length (snd p)) (add_to_group k x g))).
    rewrite IH. lia.
Qed.

Lemma errors_by_type_snoc : forall errs e,
  errors_by_type (errs ++ [e]) =
  add_to_group (error_type_value (error_type e)) (summary_entry_of e) (errors_by_type errs).
Proof. intros errs e. unfold errors_by_type. rewrite fold_left_app. reflexivity. Qed.

(** ** The block parsers of [src/wiki2adf.py] *)

Section Wiki2ADFProofs.

Import Wiki2ADF.

Variable inl : Type.
Variable pi : string -> list inl.

Lemma skipn_length_app : forall (pre rest : list string),
  skipn (length pre) (pre ++ rest) = rest.
Proof. induction pre as [|x pre IH]; intros rest; [reflexivity | exact (IH rest)]. Qed.

Lemma skipn_S_middle : forall (pre rest : list string) a,
  skipn (S (length pre)) (pre ++ a :: rest) = rest.
Proof. induction pre as [|x pre IH]; intros rest a; [reflexivity | exact (IH rest a)]. Qed.

Lemma collect_until_app : forall stop body rest,
  Forall (fun l => stop l = false) body ->
  collect_until stop (body ++ rest) = (map rstrip_nl body ++ collect_until stop rest)%list.
Proof.
  intros stop body rest H. induction H as [|l body Hl _ IH]; [reflexivity|].
  cbn [app collect_until map]. rewrite Hl, IH. reflexivity.
Qed.

(** The body of a closed block: the lines up to the closing line. *)
Lemma collect_until_closed : forall stop body closer post,
  Forall (fun l => stop l = false) body -> stop closer = true ->
  collect_until stop (body ++ closer :: post) = map rstrip_nl body.
Proof.
  intros stop body closer post H Hc. rewrite collect_until_app by exact H.
  cbn [collect_until]. rewrite Hc. apply app_nil_r.
Qed.

(** The body of an unclosed block: every line to the end. *)
Lemma collect_until_open : forall stop body,
  Forall (fun l => stop l = false) body ->
  collect_until stop body = map rstrip_nl body.
Proof.
  intros stop body H. rewrite <- (app_nil_r body) at 1.
  rewrite collect_until_app by exact H. apply app_nil_r.
Qed.

Lemma length_closed : forall (pre body post : list string) opener closer,
  (length (pre ++ opener :: body ++ closer :: post) <=? S (length pre) + length body) = false.
Proof.
  intros. apply Nat.leb_gt. rewrite !length_app. simpl. rewrite length_app. simpl. lia.
Qed.

Lemma length_open : forall (pre body : list string) opener,
  (length (pre ++ opener :: body) <=? S (length pre) + length body) = true.
Proof. intros. apply Nat.leb_le. rewrite length_app. simpl. lia. Qed.

(** [re.search] returns a match of the anchored pattern at some suffix. *)
Lemma search_from_some : forall m s pos p r,
  search_from m s pos = Some (p, r) -> exists s', m s' = Some r.
Proof.
  intros m s. induction s as [|c s IH]; intros pos p r H; cbn [search_from] in H.
  - destruct (m EmptyString) eqn:E; [|discriminate H]. injection H as _ <-. eauto.
  - destruct (m (String c s)) eqn:E.
    + injection H as _ <-. eauto.
    + exact (IH _ _ _ H).
Qed.

Lemma m_title_shape : forall s g n, m_title s = Some (g, n) -> exists c r, g = [Some (String c r)].
Proof.
  intros s g n. unfold m_title. destruct (starts_with "title=" s); [|discriminate].
  destruct (fst (span _ (sdrop 6 s))) as [|c r]; [discriminate|].
  intros H. injection H as <- _. eauto.
Qed.

(** The title paragraphs [parse_panel_block] puts first. *)
Lemma panel_title_paras : forall s (paras : list (wpara inl)),
  (search m_title s = None /\
     match (match search m_title s with Some (_, (g, _)) => nth 0 g None | None => None end) with
     | Some (String _ _ as t) => WTitlePara t :: paras
     | _ => paras
     end = paras) \/
  (exists p t n, search m_title s = Some (p, ([Some t], n)) /\
     match (match search m_title s with Some (_, (g, _)) => nth 0 g None | None => None end) with
     | Some (String _ _ as t) => WTitlePara t :: paras
     | _ => paras
     end = WTitlePara t :: paras).
Proof.
  intros s paras. destruct (search m_title s) as [[p [g n]]|] eqn:E; [right | left; split; reflexivity].
  destruct (search_from_some _ _ _ _ _ E) as [s' Hs'].
  destruct (m_title_shape _ _ _ Hs') as (c & r & ->).
  exists p, (String c r), n. split; reflexivity.
Qed.

Lemma list_items_run : forall items parsed post lt,
  Forall2 (fun l mt => m_list_line l = Some mt) items parsed ->
  match post with [] => True | l :: _ => m_list_line l = None end ->
  list_items pi (items ++ post) lt =
  (match parsed with [] => lt | _ => Some (list_kind_of (fst (last parsed (EmptyString, EmptyString)))) end,
   map (fun mt => pi (snd mt)) parsed, length items).
Proof.
  intros items parsed post lt H Hpost. revert lt.
  induction H as [|l [mk t] items parsed Hl _ IH]; intros lt.
  - destruct post as [|l post]; cbn [app list_items]; [reflexivity|].
    rewrite Hpost. reflexivity.
  - cbn [app list_items]. rewrite Hl, IH. cbn [map length fst snd].
    destruct parsed as [|mt parsed]; reflexivity.
Qed.

Lemma table_rows_run : forall tl post,
  Forall (fun l => is_table_line (rstrip_nl l) = true) tl ->
  match post with [] => True | l :: _ => is_table_line (rstrip_nl l) = false end ->
  table_rows pi (tl ++ post) =
  (map (fun l => Build_wrow (starts_with "||" (rstrip_nl l)) (table_cells pi (rstrip_nl l))) tl,
   length tl).
Proof.
  intros tl post H Hpost. induction H as [|l tl Hl _ IH].
  - destruct post as [|l post]; cbn [app table_rows]; [reflexivity|].
    unfold is_table_line in Hpost. cbv zeta. rewrite Hpost. reflexivity.
  - cbn [app table_rows]. unfold is_table_line in Hl. cbv zeta. rewrite Hl, IH. reflexivity.
Qed.

Lemma rstrip_nl_prefix : forall l, exists t, l = (rstrip_nl l ++ t)%string.
Proof.
  induction l as [|c r [t IH]]; [exists EmptyString; reflexivity|].
  cbn [rstrip_nl]. destruct (rstrip_nl r) as [|c' r'] eqn:E.
  - destruct (Ascii.eqb c nl).
    + exists (String c r). reflexivity.
    + exists t. simpl. rewrite IH at 1. reflexivity.
  - exists t. simpl. rewrite IH at 1. reflexivity.
Qed.

Lemma span_app_stop : forall p u t a b,
  span p u = (a, b) -> b <> EmptyString -> span p (u ++ t) = (a, (b ++ t)%string).
Proof.
  intros p u t. induction u as [|c r IH]; intros a b H Hb; cbn [span] in H.
  - injection H as <- <-. contradiction Hb. reflexivity.
  - cbn [append span]. destruct (p c).
    + destruct (span p r) as [a' b'] eqn:E. injection H as <- <-.
      rewrite (IH a' b' eq_refl Hb). reflexivity.
    + injection H as <- <-. reflexivity.
Qed.

Lemma is_list_start_app : forall u t,
  is_list_start u = true -> exists mt, m_list_line (u ++ t) = Some mt.
Proof.
  intros u t. unfold is_list_start, m_list_line.
  destruct (span is_marker u) as [marks r] eqn:E.
  destruct marks as [|m ms]; [discriminate|].
  destruct r as [|c r]; [discriminate|]. intros Hc.
  rewrite (span_app_stop _ _ _ _ _ E ltac:(discriminate)).
  cbn [append span]. rewrite Hc.
  destruct (span is_space (r ++ t)) as [sp rest]. eexists. reflexivity.
Qed.

Lemma skipn_nth : forall (lines : list string) i,
  i < length lines -> skipn i lines = nth i lines EmptyString :: skipn (S i) lines.
Proof.
  induction lines as [|l ls IH]; intros i H; [simpl in H; lia|].
  destruct i as [|i]; [reflexivity|]. simpl in H. apply (IH i). lia.
Qed.

(** Once a list type is set, the [parse_list] loop never unsets it. *)
Lemma list_items_some : forall ls k,
  exists k' items n, list_items pi ls (Some k) = (Some k', items, n).
Proof.
  induction ls as [|l ls IH]; intros k; cbn [list_items]; [eauto|].
  destruct (m_list_line l) as [[mk tx]|]; [|eauto].
  destruct (IH (if starts_with "#" mk then KOrdered else KBullet)) as (k' & items & n & E).
  rewrite E. eauto.
Qed.

Lemma list_step : forall lines i errs,
  i < length lines -> is_list_start (rstrip_nl (nth i lines EmptyString)) = true ->
  exists b j, parse_list pi lines i errs = (b, j, errs) /\ i < j.
Proof.
  intros lines i errs Hi Hs. unfold parse_list. rewrite (skipn_nth _ _ Hi).
  destruct (rstrip_nl_prefix (nth i lines EmptyString)) as [t Ht].
  destruct (is_list_start_app _ t Hs) as [[mk tx] Hm]. rewrite <- Ht in Hm.
  cbn [list_items]. rewrite Hm.
  destruct (list_items_some (skipn (S i) lines) (if starts_with "#" mk then KOrdered else KBullet))
    as (k & items & n & E).
  rewrite E. eexists _, _. split; [reflexivity | lia].
Qed.

Lemma table_step : forall lines i errs,
  i < length lines -> is_table_line (rstrip_nl (nth i lines EmptyString)) = true ->
  exists b j, parse_table pi lines i errs = (b, j, errs) /\ i < j.
Proof.
  intros lines i errs Hi Hs. unfold parse_table. rewrite (skipn_nth _ _ Hi).
  cbn [table_rows]. unfold is_table_line in Hs. cbv zeta. rewrite Hs.
  destruct (table_rows pi (skipn (S i) lines)) as [rows n].
  eexists _, _. split; [reflexivity | lia].
Qed.

Lemma code_step : forall lines i errs,
  exists b j e', @parse_code_block inl lines i errs = (b, j, e') /\ i < j /\
    (e' = errs \/ e' = log_error errs ("Line " ++ str_nat (S i) ++ ": Unclosed {code} block; closing at EOF")).
Proof.
  intros lines i errs. unfold parse_code_block. cbv zeta.
  eexists _, _, _. split; [reflexivity|]. split; [lia|].
  destruct (_ <=? _); [right | left]; reflexivity.
Qed.

Lemma noformat_step : forall lines i errs,
  exists b j e', @parse_noformat_block inl lines i errs = (b, j, e') /\ i < j /\
    (e' = errs \/ e' = log_error errs ("Line " ++ str_nat (S i) ++ ": Unclosed {noformat} block; closing at EOF")).
Proof.
  intros lines i errs. unfold parse_noformat_block. cbv zeta.
  eexists _, _, _. split; [reflexivity|]. split; [lia|].
  destruct (_ <=? _); [right | left]; reflexivity.
Qed.

Lemma panel_step : forall lines i errs,
  exists b j e', parse_panel_block pi lines i errs = (b, j, e') /\ i < j /\
    (e' = errs \/ e' = log_error errs ("Line " ++ str_nat (S i) ++ ": Unclosed {panel} block; closing at EOF")).
Proof.
  intros lines i errs. unfold parse_panel_block. cbv zeta.
  eexists _, _, _. split; [reflexivity|]. split; [lia|].
  destruct (_ <=? _); [right | left]; reflexivity.
Qed.

Lemma unclosed_step : forall n i errs e' kind,
  i < n -> In kind ["code"; "noformat"; "panel"] ->
  Forall (unclosed_msg n) errs ->
  (e' = errs \/ e' = log_error errs ("Line " ++ str_nat (S i) ++ ": Unclosed {" ++ kind ++ "} block; closing at EOF")) ->
  Forall (unclosed_msg n) e'.
Proof.
  intros n i errs e' kind Hi Hk He [-> | ->]; [exact He|].
  unfold log_error. apply Forall_app. split; [exact He|].
  constructor; [|constructor]. exists (S i), kind. split; [lia|]. split; [exact Hk | reflexivity].
Qed.

Lemma file_loop_errors : forall lines f i content errs,
  length lines - i < f -> Forall (unclosed_msg (length lines)) errs ->
  exists c e, file_loop pi f lines i content errs = Some (c, e) /\
              Forall (unclosed_msg (length lines)) e.
Proof.
  intros lines. induction f as [|f IH]; intros i content errs Hf He; [lia|].
  cbn [file_loop]. destruct (i <? length lines) eqn:Hi; [|eauto].
  apply Nat.ltb_lt in Hi. cbv zeta.
  destruct (starts_with "{code" (rstrip_nl (nth i lines EmptyString))) eqn:E1.
  { destruct (code_step lines i errs) as (b & j & e' & Heq & Hj & He'). rewrite Heq.
    apply IH; [lia|]. apply (unclosed_step _ i errs e' "code"); [exact Hi | simpl; auto | exact He | exact He']. }
  destruct (String.eqb (strip (rstrip_nl (nth i lines EmptyString))) "{noformat}") eqn:E2.
  { destruct (noformat_step lines i errs) as (b & j & e' & Heq & Hj & He'). rewrite Heq.
    apply IH; [lia|]. apply (unclosed_step _ i errs e' "noformat"); [exact Hi | simpl; auto | exact He | exact He']. }
  destruct (starts_with "{panel" (rstrip_nl (nth i lines EmptyString))) eqn:E3.
  { destruct (panel_step lines i errs) as (b & j & e' & Heq & Hj & He'). rewrite Heq.
    apply IH; [lia|]. apply (unclosed_step _ i errs e' "panel"); [exact Hi | simpl; auto | exact He | exact He']. }
  destruct (m_heading_line (rstrip_nl (nth i lines EmptyString))) as [[lv tx]|] eqn:E4.
  { apply IH; [lia | exact He]. }
  destruct (String.eqb (strip (rstrip_nl (nth i lines EmptyString))) "----") eqn:E5.
  { apply IH; [lia | exact He]. }
  destruct (is_list_start (rstrip_nl (nth i lines EmptyString))) eqn:E6.
  { destruct (list_step lines i errs Hi E6) as (b & j & Heq & Hj). rewrite Heq.
    apply IH; [lia | exact He]. }
  destruct (starts_with "||" (rstrip_nl (nth i lines EmptyString)) ||
            starts_with "|" (rstrip_nl (nth i lines EmptyString))) eqn:E7.
  { destruct (table_step lines i errs Hi E7) as (b & j & Heq & Hj). rewrite Heq.
    apply IH; [lia | exact He]. }
  destruct (starts_with "bq. " (rstrip_nl (nth i lines EmptyString))) eqn:E8.
  { apply IH; [lia | exact He]. }
  destruct (String.eqb (strip (rstrip_nl (nth i lines EmptyString))) "") eqn:E9.
  { apply IH; [lia | exact He]. }
  apply IH; [lia | exact He].
Qed.

(** Blank lines *)

Lemma is_blank_rstrip_nl : forall l, is_blank l = true -> is_blank (rstrip_nl l) = true.
Proof.
  intros l H. destruct (rstrip_nl_prefix l) as [t Ht]. unfold is_blank in *.
  rewrite Ht, all_chars_app in H. apply andb_true_iff in H. exact (proj1 H).
Qed.

Lemma blank_starts : forall a p u,
  is_space a = false -> is_blank u = true -> starts_with (String a p) u = false.
Proof.
  intros a p [|c r] Ha Hu; [reflexivity|]. unfold is_blank in Hu. cbn [all_chars] in Hu.
  apply andb_true_iff in Hu as [Hc _]. cbn [starts_with].
  destruct (Ascii.eqb a c) eqn:E; [|reflexivity].
  apply Ascii.eqb_eq in E. subst c. rewrite Ha in Hc. discriminate Hc.
Qed.

Lemma lstrip_blank : forall u, is_blank u = true -> lstrip u = EmptyString.
Proof.
  induction u as [|c r IH]; intros H; [reflexivity|]. unfold is_blank in H. cbn [all_chars] in H.
  apply andb_true_iff in H as [Hc Hr]. cbn [lstrip]. rewrite Hc. apply IH. exact Hr.
Qed.

Lemma strip_blank : forall u, is_blank u = true -> strip u = EmptyString.
Proof. intros u H. unfold strip. rewrite (lstrip_blank u H). reflexivity. Qed.

Lemma heading_blank : forall u, is_blank u = true -> m_heading_line u = None.
Proof.
  intros [|h [|d [|dot rest]]] H; try reflexivity. unfold is_blank in H. cbn [all_chars] in H.
  apply andb_true_iff in H as [Hh _]. unfold m_heading_line.
  destruct (Ascii.eqb h "h") eqn:E; [|reflexivity].
  apply Ascii.eqb_eq in E. subst h. discriminate Hh.
Qed.

Lemma list_start_blank : forall u, is_blank u = true -> is_list_start u = false.
Proof.
  intros [|c r] H; [reflexivity|]. unfold is_blank in H. cbn [all_chars] in H.
  apply andb_true_iff in H as [Hc _]. unfold is_list_start. cbn [span].
  assert (Hm : is_marker c = false).
  { unfold is_marker. destruct (Ascii.eqb c "*") eqn:E1; [apply Ascii.eqb_eq in E1; subst c; discriminate Hc|].
    destruct (Ascii.eqb c "-") eqn:E2; [apply Ascii.eqb_eq in E2; subst c; discriminate Hc|].
    destruct (Ascii.eqb c "#") eqn:E3; [apply Ascii.eqb_eq in E3; subst c; discriminate Hc|].
    reflexivity. }
  rewrite Hm. reflexivity.
Qed.

Lemma file_loop_blank : forall lines f i content errs,
  length lines - i < f ->
  (forall j, i <= j -> is_blank (nth j lines EmptyString) = true) ->
  file_loop pi f lines i content errs = Some (content, errs).
Proof.
  intros lines. induction f as [|f IH]; intros i content errs Hf Hb; [lia|].
  cbn [file_loop]. destruct (i <? length lines) eqn:Hi; [|reflexivity].
  apply Nat.ltb_lt in Hi. cbv zeta.
  pose proof (is_blank_rstrip_nl _ (Hb i (le_n i))) as Hu.
  set (u := rstrip_nl (nth i lines EmptyString)) in *.
  repeat match goal with
  | |- context [starts_with (String ?a ?p) u] => rewrite (blank_starts a p u eq_refl Hu)
  end.
  rewrite (strip_blank u Hu), (heading_blank u Hu), (list_start_blank u Hu).
  cbn [String.eqb orb]. apply IH; [lia | intros j Hj; apply Hb; lia].
Qed.

Lemma Forall_nth_blank : forall lines,
  Forall (fun l => is_blank l = true) lines -> forall j, is_blank (nth j lines EmptyString) = true.
Proof.
  intros lines H. induction H as [|l ls Hl _ IH]; intros j; [destruct j; reflexivity|].
  destruct j; [exact Hl | apply IH].
Qed.

End Wiki2ADFProofs.

(** * The claims *)

(** C1: for every input, [convert_text] returns a document whose root
    [content] is non-empty; when every line of the (newline-normalised)
    input is blank, so that no block is produced, the content is the single
    empty-paragraph placeholder. *)
Theorem convert_content_nonempty : forall s,
  exists d e,
    convert_text s = Some (d, e) /\
    content d <> [] /\
    (forallb is_blank (split_nl (normalize_newlines s)) = true ->
     content d = [Some empty_paragraph]).
Proof.
  intros s. destruct (convert_text_some s) as (d & e & E & H).
  exists d, e. split; [exact E|]. split; [exact H|].
  intros Hb. destruct (parse_document_blank _ initial_ctx Hb) as [c' E'].
  unfold convert_text in E. rewrite E' in E. injection E as <- _. reflexivity.
Qed.

Lemma convert_content_nonempty_witness :
  exists d e, convert_text (nl_s ++ "  ") = Some (d, e) /\ content d = [Some empty_paragraph].
Proof.
  destruct (convert_content_nonempty (nl_s ++ "  ")) as (d & e & E & _ & H).
  exists d, e. split; [exact E | apply H; reflexivity].
Defined.


(** C2: [convert_text] terminates normally on every input string: every
    loop of the converter finishes within its bound and the conversion
    returns a document (with the collected diagnostics) instead of failing.
    The model covers the code paths that are reachable on strings; the
    [except] branches that only guard against exceptions are not modelled. *)
Theorem convert_text_total : forall s,
  exists d e, convert_text s = Some (d, e).
Proof.
  intros s. destruct (convert_text_some s) as (d & e & E & _).
  exists d, e. exact E.
Qed.

(** C10: [_parse_inline_content] returns the empty list exactly on empty or
    whitespace-only text, and when no recognizer matches anywhere in a
    non-blank text it returns the single plain node [Text text []]. *)
Theorem parse_inline_content_nonempty : forall text,
  runs (parse_inline_content text) (fun r => r = [] <-> is_blank text = true) /\
  (is_blank text = false ->
   earliest_match inline_patterns text None (String.length text) = None ->
   forall c, parse_inline_content text c = Some ([Text text []], c)).
Proof.
  intros text. split.
  - apply parse_inline_content_runs.
  - intros B E c. apply parse_inline_no_match; assumption.
Qed.

Lemma parse_inline_content_nonempty_witness :
  parse_inline_content "plain text" initial_ctx = Some ([Text "plain text" []], initial_ctx).
Proof.
  apply (proj2 (parse_inline_content_nonempty "plain text")); reflexivity.
Defined.



(** C3 (as the code behaves): an input made of one fenced block whose body
    [b] has no carriage return and no closing marker gives a single code
    block holding one unmarked text leaf.  For [{noformat}] the leaf is the
    body byte for byte; for [{code}] and [{code:lang}] (an alphanumeric
    language, kept as the block's language) it is the body with leading and
    trailing whitespace stripped ([match.group(2).strip()]). *)
Theorem fenced_block_single_leaf : forall b,
  all_chars (fun y => negb (Ascii.eqb y cr)) b = true ->
  (find_sub "{code}" b = None ->
   convert_text ("{code}" ++ b ++ "{code}") =
   Some ({| version := 1; content := [Some (CodeBlock (Some None) [Text (strip b) []])] |}, [])) /\
  (forall lang, lang <> EmptyString -> all_chars is_alnum lang = true ->
   find_sub "{code}" b = None ->
   convert_text ("{code:" ++ lang ++ "}" ++ b ++ "{code}") =
   Some ({| version := 1; content := [Some (CodeBlock (Some (Some lang)) [Text (strip b) []])] |}, [])) /\
  (find_sub "{noformat}" b = None ->
   convert_text ("{noformat}" ++ b ++ "{noformat}") =
   Some ({| version := 1; content := [Some (CodeBlock None [Text b []])] |}, [])).
Proof.
  intros b Hcr. split; [|split].
  - apply convert_code_block, Hcr.
  - intros lang Hne Hal. apply convert_code_block_lang; assumption.
  - apply convert_noformat_block, Hcr.
Qed.

Lemma fenced_block_single_leaf_witness :
  convert_text ("{code}" ++ (nl_s ++ "  *stars*" ++ nl_s) ++ "{code}") =
  Some ({| version := 1; content := [Some (CodeBlock (Some None) [Text "*stars*" []])] |}, []) /\
  convert_text ("{code:" ++ "java" ++ "}" ++ (nl_s ++ "  *stars*" ++ nl_s) ++ "{code}") =
  Some ({| version := 1; content := [Some (CodeBlock (Some (Some "java")) [Text "*stars*" []])] |}, []) /\
  convert_text ("{noformat}" ++ (nl_s ++ "  *stars*" ++ nl_s) ++ "{noformat}") =
  Some ({| version := 1;
           content := [Some (CodeBlock None [Text (nl_s ++ "  *stars*" ++ nl_s) []])] |}, []).
Proof.
  destruct (fenced_block_single_leaf (nl_s ++ "  *stars*" ++ nl_s) eq_refl) as [H1 [H2 H3]].
  split; [exact (H1 eq_refl)|]. split.
  - exact (H2 "java" ltac:(discriminate) eq_refl eq_refl).
  - exact (H3 eq_refl).
Defined.

(** C3 counterexample: the body of a [{code}] block is not kept byte for
    byte: the leading newline and indentation and the trailing newline of
    the body are stripped from the text leaf. *)
Lemma code_block_body_stripped :
  convert_text ("{code}" ++ nl_s ++ "  *stars*" ++ nl_s ++ "{code}") =
  Some ({| version := 1; content := [Some (CodeBlock (Some None) [Text "*stars*" []])] |}, []) /\
  "*stars*" <> nl_s ++ "  *stars*" ++ nl_s.
Proof. split; [vm_compute; reflexivity | discriminate]. Qed.

(** C4: a [{code}] opener with no closing marker gives no code block and
    no diagnostic: no block pattern matches, and the lines become an
    ordinary paragraph with the opener as plain text. *)
Theorem unclosed_code_is_paragraph :
  convert_text ("{code}" ++ nl_s ++ "x") =
  Some ({| version := 1;
           content := [Some (Paragraph [Text ("{code}" ++ nl_s ++ "x") []])] |}, []).
Proof. vm_compute. reflexivity. Qed.

(** C5 (as the code behaves): for a color span [{color:tok}body{color}]
    that is the whole inline text, [tok] is accepted exactly when it is
    ['#'] followed by 3 or 6 hex digits, or a named color in any letter
    case; hex digits without ['#'] are refused.  An accepted color gives one
    text node with the color mark; a refused one gives the unmarked body and
    exactly one [INVALID_COLOR] diagnostic. *)
Theorem color_span_validation : forall tok body c,
  color_token tok = true ->
  find_sub "{color}" body = None ->
  (is_valid_color tok = true <->
   (exists h, tok = String "#" h /\ all_chars is_hex h = true /\
              (String.length h = 3 \/ String.length h = 6)) \/
   In (lower tok) named_colors) /\
  parse_inline_content ("{color:" ++ tok ++ "}" ++ body ++ "{color}") c =
  if is_valid_color tok then Some ([Text body [TextColor tok]], c)
  else Some ([Text body []],
             {| errors := (errors c ++
                  [{| error_type := INVALID_COLOR; error_line := line_number c; column := 0;
                      original_text := "{color:" ++ tok ++ "}" ++ body ++ "{color}";
                      parsed_as := "Plain text: " ++ body;
                      message := "Invalid color value: " ++ tok |}])%list;
                line_number := line_number c |}).
Proof.
  intros tok body c Ht Hb. split.
  - apply is_valid_color_token, Ht.
  - apply color_span_alone; assumption.
Qed.

Lemma color_span_validation_witness :
  is_valid_color "#fff" = true /\
  parse_inline_content "{color:#fff}x{color}" initial_ctx =
  Some ([Text "x" [TextColor "#fff"]], initial_ctx) /\
  parse_inline_content "{color:notacolor}x{color}" initial_ctx =
  Some ([Text "x" []],
        {| errors := [{| error_type := INVALID_COLOR; error_line := 1; column := 0;
                         original_text := "{color:notacolor}x{color}";
                         parsed_as := "Plain text: x";
                         message := "Invalid color value: notacolor" |}];
           line_number := 1 |}).
Proof.
  destruct (color_span_validation "#fff" "x" initial_ctx eq_refl eq_refl) as [H1 H2].
  destruct (color_span_validation "notacolor" "x" initial_ctx eq_refl eq_refl) as [_ H3].
  split; [apply H1; left; exists "fff"; split; [reflexivity | split; [reflexivity | left; reflexivity]]|].
  split; [exact H2 | exact H3].
Defined.

(** C5 counterexample: the 3-digit hex value [fff] without ['#'] passes the
    color pattern but is refused by [_is_valid_color], so
    [{color:fff}x{color}] gives an unmarked [x] and an [INVALID_COLOR]
    diagnostic. *)
Lemma hex_without_hash_refused :
  color_token "fff" = true /\ is_valid_color "fff" = false /\
  convert_text "{color:fff}x{color}" =
  Some ({| version := 1; content := [Some (Paragraph [Text "x" []])] |},
        [{| error_type := INVALID_COLOR; error_line := 1; column := 0;
            original_text := "{color:fff}x{color}";
            parsed_as := "Plain text: x";
            message := "Invalid color value: fff" |}]).
Proof. split; [reflexivity | split; [reflexivity | vm_compute; reflexivity]]. Qed.

(** C6 (as the code behaves): the interior of a color span with a valid
    color is not re-scanned: the span gives one text node whose text is the
    raw interior, with the color mark as its only mark. *)
Theorem color_interior_not_rescanned : forall tok body c,
  color_token tok = true ->
  is_valid_color tok = true ->
  find_sub "{color}" body = None ->
  parse_inline_content ("{color:" ++ tok ++ "}" ++ body ++ "{color}") c =
  Some ([Text body [TextColor tok]], c).
Proof.
  intros tok body c Ht Hv Hb. rewrite (color_span_alone tok body c Ht Hb), Hv. reflexivity.
Qed.

Lemma color_interior_not_rescanned_witness :
  parse_inline_content "{color:red}*bold*{color}" initial_ctx =
  Some ([Text "*bold*" [TextColor "red"]], initial_ctx).
Proof. exact (color_interior_not_rescanned "red" "*bold*" initial_ctx eq_refl eq_refl eq_refl). Defined.

(** C6 counterexample: [{color:red}*bold*{color}] gives a single text node
    ["*bold*"] with only the color mark, not a node ["bold"] with a strong
    mark. *)
Lemma color_bold_not_strong :
  convert_text "{color:red}*bold*{color}" =
  Some ({| version := 1; content := [Some (Paragraph [Text "*bold*" [TextColor "red"]])] |}, []).
Proof. vm_compute. reflexivity. Qed.

(** C7 (as the code behaves): every list node [_parse_list] produces covers
    a run of lines that are blank or items of its own family, and the line
    that ends it (if any) is neither blank nor an item of that family; so
    ['* a'], ['# b'], ['* c'] give three list nodes: bullet [a], ordered
    [b], bullet [c]. *)
Theorem list_nodes_homogeneous : forall lines start,
  runs (parse_list lines start)
       (fun '(b, n) =>
          1 <= n /\
          match b with
          | Some (BulletList _) => list_run_ok KBullet lines start n
          | Some (OrderedList _) => list_run_ok KOrdered lines start n
          | _ => True
          end) /\
  convert_text (join nl_s ["* a"; "# b"; "* c"]) =
  Some ({| version := 1;
           content := [Some (BulletList [ListItem [Text "a" []]]);
                       Some (OrderedList [ListItem [Text "b" []]]);
                       Some (BulletList [ListItem [Text "c" []]])] |}, []).
Proof.
  intros lines start. split; [apply parse_list_runs | vm_compute; reflexivity].
Qed.

Lemma list_nodes_homogeneous_witness :
  list_run_ok KBullet ["* a"; "# b"; "* c"] 0 1.
Proof.
  destruct (list_nodes_homogeneous ["* a"; "# b"; "* c"] 0) as [H _].
  destruct (H initial_ctx) as ([b n] & c' & E & Hq).
  vm_compute in E. injection E as <- <- _. exact (proj2 Hq).
Defined.

(** C7 counterexample: a change of marker family ends the list node but
    does not always start a new one.  [_parse_list] matches the raw line
    ['#  '] as a numbered item and ends the bullet list there, but at
    document level the line is stripped to ['#'], which no list pattern
    matches, so it becomes a paragraph. *)
Lemma family_change_not_new_list :
  convert_text (join nl_s ["* a"; "#  "; "* c"]) =
  Some ({| version := 1;
           content := [Some (BulletList [ListItem [Text "a" []]]);
                       Some (Paragraph [Text "#  " []]);
                       Some (BulletList [ListItem [Text "c" []]])] |}, []).
Proof. vm_compute. reflexivity. Qed.

(** C8 (as the code behaves): a line framed by double pipes with a
    non-empty interior is a header row, and a line framed by single pipes
    whose interior has at least three characters, the first and last not
    a pipe, is a data row; in both the interior is split on the separator,
    each cell trimmed, and every empty cell dropped, not only the first and
    last.  Shorter framed lines such as ['|ab|'] and ['||||'] are no table
    line and stay a paragraph.  ['||H1||H2||'] gives two header cells and
    ['|a|b|'] two data cells. *)
Theorem table_line_cells :
  (forall g, g <> EmptyString ->
   classify_table_line ("||" ++ g ++ "||") =
   Some (HeaderCells, filter (fun c => negb (String.eqb c "")) (map strip (split_on "||" g)))) /\
  (forall a m z, a <> "|"%char -> z <> "|"%char -> m <> EmptyString ->
   classify_table_line ("|" ++ String a (m ++ String z EmptyString) ++ "|") =
   Some (DataCells, filter (fun c => negb (String.eqb c ""))
                           (map strip (split_on "|" (String a (m ++ String z EmptyString)))))) /\
  convert_text "||H1||H2||" =
  Some ({| version := 1;
           content := [Some (Table [TableRow [TableHeader [Text "H1" []];
                                             TableHeader [Text "H2" []]]])] |}, []) /\
  convert_text "|a|b|" =
  Some ({| version := 1;
           content := [Some (Table [TableRow [TableCell [Text "a" []];
                                             TableCell [Text "b" []]]])] |}, []) /\
  classify_table_line "|ab|" = None /\ classify_table_line "||||" = None /\
  convert_text "|ab|" =
  Some ({| version := 1; content := [Some (Paragraph [Text "|ab|" []])] |}, []) /\
  convert_text "||||" =
  Some ({| version := 1; content := [Some (Paragraph [Text "||||" []])] |}, []).
Proof.
  split; [exact classify_header_line|].
  split; [exact classify_data_line|].
  split; [vm_compute; reflexivity|].
  split; [vm_compute; reflexivity|].
  split; [reflexivity|]. split; [reflexivity|].
  split; vm_compute; reflexivity.
Qed.

Lemma table_line_cells_witness :
  classify_table_line ("||" ++ "H1||H2" ++ "||") = Some (HeaderCells, ["H1"; "H2"]) /\
  classify_table_line ("|" ++ String "a" ("|" ++ String "b" EmptyString) ++ "|") =
  Some (DataCells, ["a"; "b"]).
Proof.
  destruct table_line_cells as [H1 [H2 _]]. split.
  - rewrite (H1 "H1||H2") by discriminate. reflexivity.
  - rewrite (H2 "a"%char "|" "b"%char) by discriminate. reflexivity.
Defined.


(** C8 counterexample: in ['|a||b|'] the empty cell between the two pipes
    is dropped, giving two data cells, where keeping all but an empty first
    and last cell gives three. *)
Lemma inner_empty_cell_dropped :
  classify_table_line "|a||b|" = Some (DataCells, ["a"; "b"]) /\
  spec_data_row_cells "|a||b|" = ["a"; ""; "b"] /\
  convert_text "|a||b|" =
  Some ({| version := 1;
           content := [Some (Table [TableRow [TableCell [Text "a" []];
                                             TableCell [Text "b" []]]])] |}, []).
Proof. split; [reflexivity | split; [reflexivity | vm_compute; reflexivity]]. Qed.

(** C9: the converter has no mention node: [[~alice]] is read by the
    simple link pattern and gives a text node ["~alice"] with a link mark
    to ["~alice"]. *)
Theorem mention_is_link_text :
  convert_text "[~alice]" =
  Some ({| version := 1; content := [Some (Paragraph [Text "~alice" [Link "~alice"]])] |}, []).
Proof. vm_compute. reflexivity. Qed.

(** * Further properties of the code *)

(** X1: the groups of [get_error_summary] have distinct keys, the group of
    a key lists, in order, the entries of the errors of that type, and
    [total_errors] is the sum of the group sizes. *)
Theorem get_error_summary_groups : forall errs,
  let g := summary_by_type (get_error_summary errs) in
  NoDup (map fst g) /\
  (forall k, assoc k g =
     match filter (fun e => String.eqb (error_type_value (error_type e)) k) errs with
     | [] => None
     | l => Some (map summary_entry_of l)
     end) /\
  total_errors (get_error_summary errs) = list_sum (map (fun p => length (snd p)) g).
Proof.
  intros errs g. subst g. unfold get_error_summary; cbn [summary_by_type total_errors].
  induction errs as [|e errs IH] using rev_ind.
  - split; [constructor|]. split; [reflexivity|]. reflexivity.
  - destruct IH as (Hnd & Has & Hsum). rewrite errors_by_type_snoc.
    split; [apply nodup_add_to_group; exact Hnd|]. split.
    + intros k. rewrite assoc_add_to_group, Has, filter_app. cbn [filter].
      rewrite (String.eqb_sym (error_type_value (error_type e)) k).
      destruct (String.eqb k (error_type_value (error_type e))).
      * destruct (filter _ errs); cbn [app map]; [reflexivity|].
        rewrite map_app. reflexivity.
      * rewrite app_nil_r. reflexivity.
    + rewrite sum_add_to_group, <- Hsum, length_app. simpl. lia.
Qed.

(** X2: every diagnostic [convert_text] records is an [INVALID_COLOR] one,
    with a line number between 1 and the number of lines of the
    (normalised) text. *)
Theorem convert_text_diagnostics : forall s, exists d e,
  convert_text s = Some (d, e) /\
  Forall (fun er => error_type er = INVALID_COLOR /\
                    1 <= error_line er <= length (split_nl (normalize_newlines s))) e.
Proof.
  intros s. destruct (convert_text_some s) as (d & e & E & _). exists d, e. split; [exact E|].
  unfold convert_text in E.
  destruct (parse_document (normalize_newlines s) initial_ctx) as [[r c']|] eqn:P; [|discriminate E].
  injection E as _ <-.
  set (L := length (split_nl (normalize_newlines s))).
  assert (HL : 1 <= L).
  { unfold L. destruct (split_nl (normalize_newlines s)) eqn:Es;
      [exfalso; exact (split_nl_nonempty _ Es) | simpl; lia]. }
  assert (Hp : pres L (parse_document (normalize_newlines s))).
  { unfold parse_document. cbv zeta. apply pres_bind; [apply pres_doc_loop; unfold L; lia|].
    intros a. apply pres_ret. }
  assert (H0 : diag_ok L initial_ctx) by (split; [simpl; lia | constructor]).
  exact (proj2 (Hp _ _ _ H0 P)).
Qed.

(** X3: converting a text gives the same document and diagnostics as
    converting its newline-normalised form. *)
Theorem convert_text_normalized : forall s,
  convert_text (normalize_newlines s) = convert_text s.
Proof.
  intros s. unfold convert_text.
  rewrite (normalize_newlines_id _ (normalize_newlines_no_cr s)). reflexivity.
Qed.

Section Wiki2ADFProperties.

Import Wiki2ADF.

Variable inl : Type.
Variable pi : string -> list inl.

(** X4: [parse_code_block] on a block whose body lines are not closing
    lines: closed, it gives the body lines joined by newlines and
    continues after the closing line, logging nothing; unclosed, it takes
    every line to the end and logs one "Unclosed {code}" error with the
    1-based line of the opening line. *)
Theorem parse_code_block_fence : forall pre opener body errs,
  Forall (fun l => starts_with "{code}" (strip l) = false) body ->
  (forall closer post, starts_with "{code}" (strip closer) = true ->
     @parse_code_block inl (pre ++ opener :: body ++ closer :: post) (length pre) errs =
     (WCodeBlock (Some (m_code_lang (strip opener))) (join nl_s (map rstrip_nl body)),
      length pre + length body + 2, errs)) /\
  @parse_code_block inl (pre ++ opener :: body) (length pre) errs =
    (WCodeBlock (Some (m_code_lang (strip opener))) (join nl_s (map rstrip_nl body)),
     length pre + length body + 2,
     log_error errs ("Line " ++ str_nat (S (length pre)) ++ ": Unclosed {code} block; closing at EOF")).
Proof.
  intros pre opener body errs Hb. split.
  - intros closer post Hc. unfold parse_code_block. cbv zeta.
    rewrite nth_middle, skipn_S_middle, (collect_until_closed _ _ _ _ Hb Hc), length_map,
      length_closed.
    f_equal. f_equal. lia.
  - unfold parse_code_block. cbv zeta.
    rewrite nth_middle, skipn_S_middle, (collect_until_open _ _ Hb), length_map, length_open.
    f_equal. f_equal. lia.
Qed.

(** X5: [parse_noformat_block] keeps the body lines (without attributes),
    continues after the closing [{noformat}] line when there is one, and
    otherwise takes every line to the end and logs one "Unclosed
    {noformat}" error. *)
Theorem parse_noformat_block_fence : forall pre opener body errs,
  Forall (fun l => String.eqb (strip l) "{noformat}" = false) body ->
  (forall closer post, String.eqb (strip closer) "{noformat}" = true ->
     @parse_noformat_block inl (pre ++ opener :: body ++ closer :: post) (length pre) errs =
     (WCodeBlock None (join nl_s (map rstrip_nl body)), length pre + length body + 2, errs)) /\
  @parse_noformat_block inl (pre ++ opener :: body) (length pre) errs =
    (WCodeBlock None (join nl_s (map rstrip_nl body)), length pre + length body + 2,
     log_error errs ("Line " ++ str_nat (S (length pre)) ++ ": Unclosed {noformat} block; closing at EOF")).
Proof.
  intros pre opener body errs Hb. split.
  - intros closer post Hc. unfold parse_noformat_block. cbv zeta.
    rewrite skipn_S_middle, (collect_until_closed _ _ _ _ Hb Hc), length_map, length_closed.
    f_equal. f_equal. lia.
  - unfold parse_noformat_block. cbv zeta.
    rewrite skipn_S_middle, (collect_until_open _ _ Hb), length_map, length_open.
    f_equal. f_equal. lia.
Qed.

(** X6: [parse_panel_block] gives an "info" panel with one paragraph per
    body line, preceded by a title paragraph exactly when [title=...]
    occurs in the opening line; it continues after the closing [{panel}]
    line, or, unclosed, logs one "Unclosed {panel}" error. *)
Theorem parse_panel_block_fence : forall pre opener body errs,
  Forall (fun l => starts_with "{panel}" (strip l) = false) body ->
  exists tp,
    ((search m_title (strip opener) = None /\ tp = []) \/
     (exists p t n, search m_title (strip opener) = Some (p, ([Some t], n)) /\ tp = [WTitlePara t])) /\
    (forall closer post, starts_with "{panel}" (strip closer) = true ->
       parse_panel_block pi (pre ++ opener :: body ++ closer :: post) (length pre) errs =
       (WPanel "info" (tp ++ map (fun l => WPara (pi (rstrip_nl l))) body),
        length pre + length body + 2, errs)) /\
    parse_panel_block pi (pre ++ opener :: body) (length pre) errs =
      (WPanel "info" (tp ++ map (fun l => WPara (pi (rstrip_nl l))) body),
       length pre + length body + 2,
       log_error errs ("Line " ++ str_nat (S (length pre)) ++ ": Unclosed {panel} block; closing at EOF")).
Proof.
  intros pre opener body errs Hb.
  set (paras := map (fun l => WPara (pi (rstrip_nl l))) body).
  assert (Hp : map (fun p => WPara (pi p)) (map rstrip_nl body) = paras)
    by (unfold paras; rewrite map_map; reflexivity).
  destruct (panel_title_paras inl (strip opener) paras) as [[Hn Ht] | (p & t & n & Hs & Ht)].
  - exists []. split; [left; split; [exact Hn | reflexivity]|]. split.
    + intros closer post Hc. unfold parse_panel_block. cbv zeta.
      rewrite nth_middle, skipn_S_middle, (collect_until_closed _ _ _ _ Hb Hc), length_map,
        length_closed, Hp, Ht.
      f_equal. f_equal. lia.
    + unfold parse_panel_block. cbv zeta.
      rewrite nth_middle, skipn_S_middle, (collect_until_open _ _ Hb), length_map, length_open, Hp, Ht.
      f_equal. f_equal. lia.
  - exists [WTitlePara t]. split; [right; exists p, t, n; split; [exact Hs | reflexivity]|]. split.
    + intros closer post Hc. unfold parse_panel_block. cbv zeta.
      rewrite nth_middle, skipn_S_middle, (collect_until_closed _ _ _ _ Hb Hc), length_map,
        length_closed, Hp, Ht.
      f_equal. f_equal. lia.
    + unfold parse_panel_block. cbv zeta.
      rewrite nth_middle, skipn_S_middle, (collect_until_open _ _ Hb), length_map, length_open, Hp, Ht.
      f_equal. f_equal. lia.
Qed.

(** X7: [parse_list] merges every consecutive list line into one list node
    whatever their markers: one item per line, the list type taken from
    the marker of the last line, continuing at the first line that is not
    a list line, with no error. *)
Theorem parse_list_merges : forall pre items parsed post errs,
  Forall2 (fun l mt => m_list_line l = Some mt) items parsed ->
  parsed <> [] ->
  match post with [] => True | l :: _ => m_list_line l = None end ->
  parse_list pi (pre ++ items ++ post) (length pre) errs =
  (WList (list_kind_of (fst (last parsed (EmptyString, EmptyString))))
         (map (fun mt => pi (snd mt)) parsed),
   length pre + length items, errs).
Proof.
  intros pre items parsed post errs H Hne Hpost. unfold parse_list.
  rewrite skipn_length_app, (list_items_run inl pi _ _ _ None H Hpost).
  destruct parsed as [|mt parsed]; [contradiction Hne; reflexivity | reflexivity].
Qed.

(** X8: [parse_table] makes one row per consecutive line starting with
    ["|"] (after dropping the newline), a header row exactly when the line
    starts with ["||"], continues at the first other line, and logs an
    error only when it finds no row. *)
Theorem parse_table_rows : forall pre tl post errs,
  Forall (fun l => is_table_line (rstrip_nl l) = true) tl ->
  match post with [] => True | l :: _ => is_table_line (rstrip_nl l) = false end ->
  parse_table pi (pre ++ tl ++ post) (length pre) errs =
  (WTable (map (fun l => Build_wrow (starts_with "||" (rstrip_nl l)) (table_cells pi (rstrip_nl l))) tl),
   length pre + length tl,
   match tl with
   | [] => log_error errs ("Line " ++ str_nat (S (length pre)) ++ ": Table parsing found no rows.")
   | _ => errs
   end).
Proof.
  intros pre tl post errs H Hpost. unfold parse_table.
  rewrite skipn_length_app, (table_rows_run inl pi _ _ H Hpost).
  destruct tl; reflexivity.
Qed.

(** X9: on a file whose lines are all blank, [parse_file] produces a
    document with no content and logs no error. *)
Theorem parse_file_blank : forall lines,
  Forall (fun l => is_blank l = true) lines -> parse_file pi lines = Some ([], []).
Proof.
  intros lines H. unfold parse_file.
  apply file_loop_blank; [lia | intros j _; apply Forall_nth_blank; exact H].
Qed.

(** X10: [parse_file] always returns, and the only errors it logs are
    "Unclosed" errors of a [{code}], [{noformat}] or [{panel}] block, each
    naming a line of the file: the list and table parsing errors are never
    logged. *)
Theorem parse_file_errors : forall lines, exists content errs,
  parse_file pi lines = Some (content, errs) /\ Forall (unclosed_msg (length lines)) errs.
Proof.
  intros lines. unfold parse_file. apply file_loop_errors; [lia | constructor].
Qed.

End Wiki2ADFProperties.

(** Witnesses of the properties with hypotheses, on concrete lines. *)

Lemma parse_code_block_fence_witness :
  Forall (fun l => starts_with "{code}" (strip l) = false) ["x = 1"] /\
  @Wiki2ADF.parse_code_block string ["{code:java}"; "x = 1"; "{code}"] 0 [] =
    (Wiki2ADF.WCodeBlock (Some (Some "java")) "x = 1", 3, []) /\
  @Wiki2ADF.parse_code_block string ["{code:java}"; "x = 1"] 0 [] =
    (Wiki2ADF.WCodeBlock (Some (Some "java")) "x = 1", 3,
     ["Line 1: Unclosed {code} block; closing at EOF"]).
Proof.
  assert (Hb : Forall (fun l => starts_with "{code}" (strip l) = false) ["x = 1"])
    by (repeat constructor).
  destruct (parse_code_block_fence string [] "{code:java}" ["x = 1"] [] Hb) as [H1 H2].
  split; [exact Hb|]. split; [exact (H1 "{code}" [] eq_refl) | exact H2].
Defined.

Lemma parse_noformat_block_fence_witness :
  Forall (fun l => String.eqb (strip l) "{noformat}" = false) ["a"; "b"] /\
  @Wiki2ADF.parse_noformat_block string ["{noformat}"; "a"; "b"; "{noformat}"; "c"] 0 [] =
    (Wiki2ADF.WCodeBlock None ("a" ++ nl_s ++ "b"), 4, []) /\
  @Wiki2ADF.parse_noformat_block string ["{noformat}"; "a"; "b"] 0 [] =
    (Wiki2ADF.WCodeBlock None ("a" ++ nl_s ++ "b"), 4,
     ["Line 1: Unclosed {noformat} block; closing at EOF"]).
Proof.
  assert (Hb : Forall (fun l => String.eqb (strip l) "{noformat}" = false) ["a"; "b"])
    by (repeat constructor).
  destruct (parse_noformat_block_fence string [] "{noformat}" ["a"; "b"] [] Hb) as [H1 H2].
  split; [exact Hb|]. split; [exact (H1 "{noformat}" ["c"] eq_refl) | exact H2].
Defined.

Lemma parse_panel_block_fence_witness :
  Forall (fun l => starts_with "{panel}" (strip l) = false) ["line"] /\
  Wiki2ADF.parse_panel_block (fun t => [t]) ["{panel:title=T}"; "line"; "{panel}"] 0 [] =
    (Wiki2ADF.WPanel "info" [Wiki2ADF.WTitlePara "T"; Wiki2ADF.WPara ["line"]], 3, []).
Proof.
  assert (Hb : Forall (fun l => starts_with "{panel}" (strip l) = false) ["line"])
    by (repeat constructor).
  destruct (parse_panel_block_fence string (fun t => [t]) [] "{panel:title=T}" ["line"] [] Hb)
    as (tp & [[Hn _] | (p & t & n & Hs & ->)] & H1 & _).
  - vm_compute in Hn. discriminate Hn.
  - vm_compute in Hs. injection Hs as _ <- _.
    split; [exact Hb | exact (H1 "{panel}" [] eq_refl)].
Defined.

Lemma parse_list_merges_witness :
  Forall2 (fun l mt => Wiki2ADF.m_list_line l = Some mt) ["* a"; "# b"] [("*", "a"); ("#", "b")] /\
  [("*", "a"); ("#", "b")] <> [] /\
  Wiki2ADF.m_list_line "text" = None /\
  Wiki2ADF.parse_list (fun t => [t]) ["* a"; "# b"; "text"] 0 [] =
    (Wiki2ADF.WList KOrdered [["a"]; ["b"]], 2, []).
Proof.
  assert (H : Forall2 (fun l mt => Wiki2ADF.m_list_line l = Some mt) ["* a"; "# b"]
                [("*", "a"); ("#", "b")]) by (repeat constructor).
  split; [exact H|]. split; [discriminate|]. split; [reflexivity|].
  exact (parse_list_merges string (fun t => [t]) [] ["* a"; "# b"] [("*", "a"); ("#", "b")]
           ["text"] [] H ltac:(discriminate) eq_refl).
Defined.

Lemma parse_table_rows_witness :
  Forall (fun l => Wiki2ADF.is_table_line (Wiki2ADF.rstrip_nl l) = true) ["||h||"; "| a | b |"] /\
  Wiki2ADF.is_table_line (Wiki2ADF.rstrip_nl "x") = false /\
  Wiki2ADF.parse_table (fun t => [t]) ["||h||"; "| a | b |"; "x"] 0 [] =
    (Wiki2ADF.WTable [Wiki2ADF.Build_wrow true [["h"]]; Wiki2ADF.Build_wrow false [["a"]; ["b"]]], 2, []).
Proof.
  assert (H : Forall (fun l => Wiki2ADF.is_table_line (Wiki2ADF.rstrip_nl l) = true)
                ["||h||"; "| a | b |"]) by (repeat constructor).
  split; [exact H|]. split; [reflexivity|].
  exact (parse_table_rows string (fun t => [t]) [] ["||h||"; "| a | b |"] ["x"] [] H eq_refl).
Defined.

Lemma parse_file_blank_witness :
  Forall (fun l => is_blank l = true) ["  "; ""; "	"] /\
  Wiki2ADF.parse_file (fun t => [t]) ["  "; ""; "	"] = Some ([], []).
Proof.
  assert (H : Forall (fun l => is_blank l = true) ["  "; ""; "	"]) by (repeat constructor).
  split; [exact H | exact (parse_file_blank string (fun t => [t]) _ H)].
Defined.

